(** * A shallow embedding of the Restricted Boltzmann Machine of [RBM_2.py]

    The development follows the source class [RBM] method by method.

    - A 2-D torch tensor is a record carrying its shape and its rows; a 1-D
      tensor is a list.  Tensor entries, which the source stores in single
      precision, are exact rationals here: the statements below are about
      which entries are combined, along which axis and with which divisor.
    - The Gibbs-step schedule of [step] is an integer computed through
      Python floats; that computation is kept bit-exact (IEEE binary64) with
      the standard library's [SpecFloat].
    - Methods run in a state-and-exception monad whose state holds the
      object [self] and torch's random generator: the tensors it will hand
      out, and how many of them have been drawn. *)

From Stdlib Require Import ZArith QArith Qminmax Qabs List Bool Lia SpecFloat.
Import ListNotations.

Set Implicit Arguments.

(** ** Sums of rationals over an index range *)

Fixpoint sum_n (n : nat) (f : nat -> Q) : Q :=
  match n with
  | O => 0
  | S n' => sum_n n' f + f n'
  end.

(** ** Tensors *)

Definition vec := list Q.

Record tensor : Type := mkTensor {
  rows : nat;
  cols : nat;
  data : list (list Q)
}.

Definition entry (T : tensor) (i j : nat) : Q := nth j (nth i (data T) []) 0.

Definition vnth (v : vec) (j : nat) : Q := nth j v 0.

Definition tabulate (n m : nat) (f : nat -> nat -> Q) : tensor :=
  mkTensor n m (map (fun i => map (f i) (seq 0 m)) (seq 0 n)).

Definition vtab (n : nat) (f : nat -> Q) : vec := map f (seq 0 n).

(** A tensor literal: the rows as written and the width (needed when there
    is no row to read it from). *)
Definition tensor_of_rows (c : nat) (l : list (list Q)) : tensor :=
  mkTensor (length l) c l.

Definition wf_tensor (T : tensor) : Prop :=
  length (data T) = rows T /\ Forall (fun r => length r = cols T) (data T).

Definition same_shape (A B : tensor) : bool :=
  (rows A =? rows B)%nat && (cols A =? cols B)%nat.

(** [T.t()] and [T.transpose(0, 1)] *)
Definition transpose (T : tensor) : tensor :=
  tabulate (cols T) (rows T) (fun i j => entry T j i).

(** [F.relu] on one entry and on a tensor *)
Definition relu_q (x : Q) : Q := if Qle_bool 0 x then x else 0.

Definition relu (T : tensor) : tensor :=
  tabulate (rows T) (cols T) (fun i j => relu_q (entry T i j)).

Definition matmul_t (A B : tensor) : tensor :=
  tabulate (rows A) (cols B)
    (fun i j => sum_n (cols A) (fun k => entry A i k * entry B k j)).

Definition add_bias_t (A : tensor) (b : vec) : tensor :=
  tabulate (rows A) (cols A) (fun i j => entry A i j + vnth b j).

Definition sub_t (A B : tensor) : tensor :=
  tabulate (rows A) (cols A) (fun i j => entry A i j - entry B i j).

Definition add_t (A B : tensor) : tensor :=
  tabulate (rows A) (cols A) (fun i j => entry A i j + entry B i j).

(** [c * T], [T / c], [T ** 2], [torch.abs(T)] *)
Definition scale_t (c : Q) (T : tensor) : tensor :=
  tabulate (rows T) (cols T) (fun i j => c * entry T i j).

Definition div_t (T : tensor) (c : Q) : tensor :=
  tabulate (rows T) (cols T) (fun i j => entry T i j / c).

Definition square_t (T : tensor) : tensor :=
  tabulate (rows T) (cols T) (fun i j => entry T i j * entry T i j).

Definition abs_t (T : tensor) : tensor :=
  tabulate (rows T) (cols T) (fun i j => Qabs (entry T i j)).

(** [torch.sum(T, dim=0)]: one sum per column, taken down the rows. *)
Definition sum_dim0 (T : tensor) : vec :=
  vtab (cols T) (fun j => sum_n (rows T) (fun i => entry T i j)).

(** [torch.sum(T)]: all entries. *)
Definition sum_all (T : tensor) : Q :=
  sum_n (rows T) (fun i => sum_n (cols T) (fun j => entry T i j)).

(** [torch.mean(v)] of a 1-D tensor. *)
Definition mean_v (v : vec) : Q :=
  sum_n (length v) (vnth v) / inject_Z (Z.of_nat (length v)).

Definition vscale (c : Q) (v : vec) : vec := map (Qmult c) v.
Definition vdiv (v : vec) (c : Q) : vec := map (fun x => x / c) v.
Definition vadd_t (a b : vec) : vec :=
  vtab (length a) (fun j => vnth a j + vnth b j).

(** [(prob >= u).float()] on one entry *)
Definition ge_float (p u : Q) : Q := if Qle_bool u p then 1 else 0.

(** ** Python values, exceptions and the method monad *)

Inductive exn : Type :=
| RuntimeError        (* torch: shapes do not fit, negative dimension *)
| UnboundLocalError   (* a local read before any assignment *)
| ZeroDivisionError
| ValueError
| OverflowError.

Inductive outcome (A : Type) : Type :=
| Return (a : A)
| Raise (e : exn).
Arguments Raise {A} e.

(** What [contrastive_divergence], [step] and [reconstruction_error] hand
    back to a Python caller: a 0-dim tensor or a tuple. *)
Inductive pyvalue : Type :=
| Scalar (x : Q)
| Tuple (items : list Q).

Record RBM : Type := mkRBM {
  visible_units : Z;
  hidden_units : Z;
  k : Z;
  learning_rate : Q;
  learning_rate_decay : bool;
  weight_decay : Q;
  momentum : Q;
  final_momentum : Q;
  xavier_init : bool;
  increase_to_cd_k : bool;
  use_gpu : bool;
  batch_size : Z;
  W : tensor;
  h_bias : vec;
  v_bias : vec;
  v_bias_update : vec;
  h_bias_update : vec;
  grad_update : tensor
}.

Definition set_momentum (m : Q) (s : RBM) : RBM :=
  mkRBM (visible_units s) (hidden_units s) (k s) (learning_rate s)
    (learning_rate_decay s) (weight_decay s) m (final_momentum s)
    (xavier_init s) (increase_to_cd_k s) (use_gpu s) (batch_size s)
    (W s) (h_bias s) (v_bias s) (v_bias_update s) (h_bias_update s)
    (grad_update s).

Definition set_batch_size (b : Z) (s : RBM) : RBM :=
  mkRBM (visible_units s) (hidden_units s) (k s) (learning_rate s)
    (learning_rate_decay s) (weight_decay s) (momentum s) (final_momentum s)
    (xavier_init s) (increase_to_cd_k s) (use_gpu s) b
    (W s) (h_bias s) (v_bias s) (v_bias_update s) (h_bias_update s)
    (grad_update s).

Definition set_W (T : tensor) (s : RBM) : RBM :=
  mkRBM (visible_units s) (hidden_units s) (k s) (learning_rate s)
    (learning_rate_decay s) (weight_decay s) (momentum s) (final_momentum s)
    (xavier_init s) (increase_to_cd_k s) (use_gpu s) (batch_size s)
    T (h_bias s) (v_bias s) (v_bias_update s) (h_bias_update s)
    (grad_update s).

Definition set_h_bias (v : vec) (s : RBM) : RBM :=
  mkRBM (visible_units s) (hidden_units s) (k s) (learning_rate s)
    (learning_rate_decay s) (weight_decay s) (momentum s) (final_momentum s)
    (xavier_init s) (increase_to_cd_k s) (use_gpu s) (batch_size s)
    (W s) v (v_bias s) (v_bias_update s) (h_bias_update s)
    (grad_update s).

Definition set_v_bias (v : vec) (s : RBM) : RBM :=
  mkRBM (visible_units s) (hidden_units s) (k s) (learning_rate s)
    (learning_rate_decay s) (weight_decay s) (momentum s) (final_momentum s)
    (xavier_init s) (increase_to_cd_k s) (use_gpu s) (batch_size s)
    (W s) (h_bias s) v (v_bias_update s) (h_bias_update s)
    (grad_update s).

Definition set_v_bias_update (v : vec) (s : RBM) : RBM :=
  mkRBM (visible_units s) (hidden_units s) (k s) (learning_rate s)
    (learning_rate_decay s) (weight_decay s) (momentum s) (final_momentum s)
    (xavier_init s) (increase_to_cd_k s) (use_gpu s) (batch_size s)
    (W s) (h_bias s) (v_bias s) v (h_bias_update s)
    (grad_update s).

Definition set_h_bias_update (v : vec) (s : RBM) : RBM :=
  mkRBM (visible_units s) (hidden_units s) (k s) (learning_rate s)
    (learning_rate_decay s) (weight_decay s) (momentum s) (final_momentum s)
    (xavier_init s) (increase_to_cd_k s) (use_gpu s) (batch_size s)
    (W s) (h_bias s) (v_bias s) (v_bias_update s) v
    (grad_update s).

Definition set_grad_update (T : tensor) (s : RBM) : RBM :=
  mkRBM (visible_units s) (hidden_units s) (k s) (learning_rate s)
    (learning_rate_decay s) (weight_decay s) (momentum s) (final_momentum s)
    (xavier_init s) (increase_to_cd_k s) (use_gpu s) (batch_size s)
    (W s) (h_bias s) (v_bias s) (v_bias_update s) (h_bias_update s)
    T.

(** The state a method runs in: the object and the random generator.
    [source c i j] is entry [(i, j)] of the [c]-th tensor the generator
    produces; [drawn] counts the tensors produced so far. *)
Record world : Type := mkWorld {
  self : RBM;
  source : nat -> nat -> nat -> Q;
  drawn : nat
}.

Definition M (A : Type) : Type := world -> outcome A * world.

Definition ret {A} (a : A) : M A := fun w => (Return a, w).

Definition raise {A} (e : exn) : M A := fun w => (Raise e, w).

Definition bind {A B} (c : M A) (f : A -> M B) : M B :=
  fun w =>
    match c w with
    | (Return a, w') => f a w'
    | (Raise e, w') => (Raise e, w')
    end.

Declare Scope py_scope.
Delimit Scope py_scope with py.
Notation "x <- c ;; f" := (bind c (fun x => f))
  (at level 61, c at next level, right associativity) : py_scope.
Notation "' p <- c ;; f" := (bind c (fun x => let p := x in f))
  (at level 61, p pattern, c at next level, right associativity) : py_scope.
Notation "c ;;; f" := (bind c (fun _ => f))
  (at level 61, right associativity) : py_scope.
Open Scope py_scope.

Definition get_self : M RBM := fun w => (Return (self w), w).

Definition modify_self (f : RBM -> RBM) : M unit :=
  fun w => (Return tt, mkWorld (f (self w)) (source w) (drawn w)).

(** Reading a local that a loop body was expected to bind. *)
Definition read_local {A} (x : option A) : M A :=
  match x with
  | Some a => ret a
  | None => raise UnboundLocalError
  end.

(** *** torch operations that can refuse their arguments

    Shapes are compared exactly.  An [RBM] built by the constructor keeps
    [W], the biases and the accumulators at the shapes fixed there, so the
    size-1 broadcasting torch would also accept never comes into play. *)

Definition matmul (A B : tensor) : M tensor :=
  if (cols A =? rows B)%nat then ret (matmul_t A B) else raise RuntimeError.

Definition add_bias (A : tensor) (b : vec) : M tensor :=
  if (cols A =? length b)%nat then ret (add_bias_t A b) else raise RuntimeError.

Definition sub (A B : tensor) : M tensor :=
  if same_shape A B then ret (sub_t A B) else raise RuntimeError.

Definition add (A B : tensor) : M tensor :=
  if same_shape A B then ret (add_t A B) else raise RuntimeError.

Definition vadd (a b : vec) : M vec :=
  if (length a =? length b)%nat then ret (vadd_t a b) else raise RuntimeError.

(** [torch.rand_like(T)]: the next tensor of the generator, at [T]'s shape. *)
Definition rand_like (T : tensor) : M tensor :=
  fun w => (Return (tabulate (rows T) (cols T) (source w (drawn w))),
            mkWorld (self w) (source w) (S (drawn w))).

(** ** The activation engine *)

Definition ge_float_t (prob u : tensor) : tensor :=
  tabulate (rows prob) (cols prob)
    (fun i j => ge_float (entry prob i j) (entry u i j)).

Definition sampling (prob : tensor) : M tensor :=
  u <- rand_like prob ;;
  ret (ge_float_t prob u).

Definition to_hidden (X : tensor) : M (tensor * tensor) :=
  s <- get_self ;;
  X_prob <- matmul X (W s) ;;
  X_prob <- add_bias X_prob (h_bias s) ;;
  let X_prob := relu X_prob in
  sample_X_prob <- sampling X_prob ;;
  ret (X_prob, sample_X_prob).

Definition to_visible (X : tensor) : M (tensor * tensor) :=
  s <- get_self ;;
  X_prob <- matmul X (transpose (W s)) ;;
  X_prob <- add_bias X_prob (v_bias s) ;;
  let X_prob := relu X_prob in
  sample_X_prob <- sampling X_prob ;;
  ret (X_prob, sample_X_prob).

Definition forward (input_data : tensor) : M (tensor * tensor) :=
  to_hidden input_data.

(** ** [reconstruct] *)

(** The body of [for i in range(n_gibbs)], with the locals [prob_v_] and
    [v] it rebinds; [prob_v_] has no binding before the first pass. *)
Fixpoint reconstruct_loop (n : nat) (prob_v_ : option tensor) (v : tensor)
  : M (option tensor * tensor) :=
  match n with
  | O => ret (prob_v_, v)
  | S n' =>
      '(prob_h_, _) <- to_hidden v ;;
      '(prob_v_', v') <- to_visible prob_h_ ;;
      reconstruct_loop n' (Some prob_v_') v'
  end.

Definition reconstruct (X : tensor) (n_gibbs : Z) : M (tensor * tensor) :=
  '(prob_v_, v) <- reconstruct_loop (Z.to_nat n_gibbs) None X ;;
  prob_v_ <- read_local prob_v_ ;;
  ret (prob_v_, v).

(** ** The contrastive-divergence estimator *)

Fixpoint gibbs_loop (n : nat) (hidden_activations : tensor)
    (visible_probabilities hidden_probabilities : option tensor)
  : M (option tensor * option tensor) :=
  match n with
  | O => ret (visible_probabilities, hidden_probabilities)
  | S n' =>
      '(vp, _) <- to_visible hidden_activations ;;
      '(hp, ha) <- to_hidden vp ;;
      gibbs_loop n' ha (Some vp) (Some hp)
  end.

(** Lines 184-197: the parameter update of a training call.  The divisor
    is the [batch_size] kept in the object.  (A zero divisor, which floats
    turn into infinities, lies outside the rational reading; the
    properties of the update are stated through the divisor as it is.) *)
Definition update_parameters (input_data positive_associations
    negative_associations positive_hidden_probabilities
    negative_visible_probabilities negative_hidden_probabilities : tensor)
    (lr : Q) : M unit :=
  s <- get_self ;;
  let batch_size := inject_Z (batch_size s) in
  g <- sub positive_associations negative_associations ;;
  decayed <- sub (div_t g batch_size) (scale_t (weight_decay s) (W s)) ;;
  gu <- add (scale_t (momentum s) (grad_update s)) (scale_t lr decayed) ;;
  modify_self (set_grad_update gu) ;;;
  dv <- sub input_data negative_visible_probabilities ;;
  vu <- vadd (vscale (momentum s) (v_bias_update s))
             (vdiv (vscale lr (sum_dim0 dv)) batch_size) ;;
  modify_self (set_v_bias_update vu) ;;;
  dh <- sub positive_hidden_probabilities negative_hidden_probabilities ;;
  hu <- vadd (vscale (momentum s) (h_bias_update s))
             (vdiv (vscale lr (sum_dim0 dh)) batch_size) ;;
  modify_self (set_h_bias_update hu) ;;;
  W' <- add (W s) gu ;;
  modify_self (set_W W') ;;;
  vb <- vadd (v_bias s) vu ;;
  modify_self (set_v_bias vb) ;;;
  hb <- vadd (h_bias s) hu ;;
  modify_self (set_h_bias hb).

Definition contrastive_divergence (input_data : tensor) (training : bool)
    (n_gibbs_sampling_steps : Z) (lr : Q) : M pyvalue :=
  '(positive_hidden_probabilities, positive_hidden_act) <-
     to_hidden input_data ;;
  positive_associations <-
     matmul (transpose input_data) positive_hidden_probabilities ;;
  '(visible_probabilities, hidden_probabilities) <-
     gibbs_loop (Z.to_nat n_gibbs_sampling_steps) positive_hidden_act
       None None ;;
  negative_visible_probabilities <- read_local visible_probabilities ;;
  negative_hidden_probabilities <- read_local hidden_probabilities ;;
  negative_associations <-
     matmul (transpose negative_visible_probabilities)
       negative_hidden_probabilities ;;
  (if training
   then update_parameters input_data positive_associations
          negative_associations positive_hidden_probabilities
          negative_visible_probabilities negative_hidden_probabilities lr
   else ret tt) ;;;
  d <- sub input_data negative_visible_probabilities ;;
  let error := mean_v (sum_dim0 (square_t d)) in
  s <- get_self ;;
  ret (Tuple [error; sum_all (abs_t (grad_update s))]).

(** [contrastive_divergence(data, False)]: the remaining arguments take
    their defaults, one Gibbs step and [lr = 0.001]. *)
Definition reconstruction_error (data : tensor) : M pyvalue :=
  contrastive_divergence data false 1 (1 # 1000).

(** ** Python floats in [step]

    [epoch / num_epochs] divides two ints into a double, the product with
    the int [k] is a double product, and [math.ceil] turns the double back
    into an int.  The ints of the schedule are far below [2^53], where the
    conversion to a double is exact. *)

Definition float : Type := spec_float.

Definition float_of_int (z : Z) : float := binary_normalize 53 1024 z 0 false.

Definition int_truediv (a b : Z) : M float :=
  if (b =? 0)%Z then raise ZeroDivisionError
  else ret (SFdiv 53 1024 (float_of_int a) (float_of_int b)).

Definition float_mul_int (x : float) (z : Z) : float :=
  SFmul 53 1024 x (float_of_int z).

(** [math.ceil] of a double: the least int not below it; an infinity or a
    NaN has none. *)
Definition ceil_float (x : float) : outcome Z :=
  match x with
  | S754_zero _ => Return 0%Z
  | S754_finite sg m e =>
      let v := if sg then Zneg m else Zpos m in
      Return (if (0 <=? e)%Z then (v * 2 ^ e)%Z
              else (- ((- v) / 2 ^ (- e)))%Z)
  | S754_infinity _ => Raise OverflowError
  | S754_nan => Raise ValueError
  end.

Definition lift {A} (o : outcome A) : M A := fun w => (o, w).

Definition math_ceil (x : float) : M Z := lift (ceil_float x).

(** ** [step] *)

Definition step (input_data : tensor) (epoch num_epochs : Z) : M pyvalue :=
  s <- get_self ;;
  n_gibbs_sampling_steps <-
    (if increase_to_cd_k s
     then q <- int_truediv epoch num_epochs ;;
          math_ceil (float_mul_int q (k s))
     else ret (k s)) ;;
  lr <-
    (if learning_rate_decay s
     then if (epoch =? 0)%Z then raise ZeroDivisionError
          else ret (learning_rate s / inject_Z epoch)
     else ret (learning_rate s)) ;;
  (if (5 <? epoch)%Z
   then modify_self (fun s => set_momentum (final_momentum s) s)
   else ret tt) ;;;
  contrastive_divergence input_data true n_gibbs_sampling_steps lr.

(** ** [train] *)

(** What [train] may be given: a ready [DataLoader], seen as the batches it
    yields on every pass, or a raw dataset, one sample per row, which
    [train] wraps into a loader of [batch_size] rows per batch. *)
Inductive loader_arg : Type :=
| DataLoader (batches : list tensor)
| Dataset (samples : tensor).

Fixpoint chunks (fuel bs : nat) (l : list (list Q)) : list (list (list Q)) :=
  match fuel, l with
  | S fuel', _ :: _ => firstn bs l :: chunks fuel' bs (skipn bs l)
  | _, _ => []
  end.

(** [torch.utils.data.DataLoader(dataset, batch_size=batch_size)]: torch
    refuses a batch size that is not positive; the last batch keeps the
    rows that are left. *)
Definition new_DataLoader (dataset : tensor) (batch_size : Z)
  : M (list tensor) :=
  if (batch_size <=? 0)%Z then raise ValueError
  else ret (map (tensor_of_rows (cols dataset))
              (chunks (length (data dataset)) (Z.to_nat batch_size)
                 (data dataset))).

(** [batch.view(len(batch), visible_units)] on a 2-D batch: the element
    counts must agree; [-1] asks torch to infer the width. *)
Definition view (batch : tensor) (width : Z) : M tensor :=
  if (width <? -1)%Z then raise RuntimeError
  else if (width =? -1)%Z then
    if (rows batch =? 0)%nat then raise RuntimeError else ret batch
  else if (rows batch * cols batch =? rows batch * Z.to_nat width)%nat
    then ret (mkTensor (rows batch) (Z.to_nat width) (data batch))
    else raise RuntimeError.

(** [cost_[i - 1], grad_[i - 1] = ...]: the right-hand side must unpack
    into two values. *)
Definition unpack2 (v : pyvalue) : M (Q * Q) :=
  match v with
  | Tuple [a; b] => ret (a, b)
  | _ => raise ValueError
  end.

Fixpoint train_batches (train_loader : list tensor) (epoch num_epochs : Z)
  : M unit :=
  match train_loader with
  | [] => ret tt
  | batch :: rest =>
      s <- get_self ;;
      batch <- view batch (visible_units s) ;;
      r <- step batch epoch num_epochs ;;
      unpack2 r ;;;
      train_batches rest epoch num_epochs
  end.

(** [for epoch in range(1, num_epochs + 1)], [todo] passes left.  The
    per-epoch statistics are only printed and are left out. *)
Fixpoint train_epochs (todo : nat) (epoch : Z) (train_loader : list tensor)
    (num_epochs : Z) : M unit :=
  match todo with
  | O => ret tt
  | S todo' =>
      train_batches train_loader epoch num_epochs ;;;
      train_epochs todo' (epoch + 1)%Z train_loader num_epochs
  end.

Definition train (train_dataloader : loader_arg) (num_epochs batch_size : Z)
  : M unit :=
  modify_self (set_batch_size batch_size) ;;;
  train_loader <-
    match train_dataloader with
    | DataLoader batches => ret batches
    | Dataset samples => new_DataLoader samples batch_size
    end ;;
  train_epochs (Z.to_nat num_epochs) 1%Z train_loader num_epochs.

(** ** The constructor *)

Definition zeros (n m : nat) : tensor := tabulate n m (fun _ _ => 0).
Definition vzeros (n : nat) : vec := vtab n (fun _ => 0).

(** [torch.randn(v, h)], [torch.rand(v, h)], [torch.zeros(n)]: a negative
    size is refused. *)
Definition check_size (n : Z) : outcome nat :=
  if (n <? 0)%Z then Raise RuntimeError else Return (Z.to_nat n).

(** [RBM(...)].  [sqrt] stands for [torch.sqrt]; [src] and [drawn] are the
    random generator the constructor draws the weights from.  The result is
    the new object and the generator after the draw.  Moving the tensors to
    an accelerator ([use_gpu]) does not change them. *)
Definition __init__ (sqrt : Q -> Q)
    (visible_units hidden_units k : Z) (learning_rate : Q)
    (learning_rate_decay : bool) (weight_decay initial_momentum
    final_momentum : Q) (xavier_init increase_to_cd_k use_gpu : bool)
    (src : nat -> nat -> nat -> Q) (drawn : nat) : outcome world :=
  let finish (v h : nat) (W0 : tensor) :=
    Return (mkWorld
      (mkRBM visible_units hidden_units k learning_rate
         learning_rate_decay weight_decay initial_momentum
         final_momentum xavier_init increase_to_cd_k use_gpu 16
         W0 (vzeros h) (vzeros v) (vzeros v) (vzeros h) (zeros v h))
      src (S drawn)) in
  if negb xavier_init then
    match check_size visible_units, check_size hidden_units with
    | Return v, Return h =>
        finish v h (tabulate v h (fun i j => src drawn i j * (1 # 10)))
    | Raise e, _ => Raise e
    | _, Raise e => Raise e
    end
  else
    if (visible_units + hidden_units =? 0)%Z then Raise ZeroDivisionError
    else
      let xavier_value :=
        sqrt (1 / inject_Z (visible_units + hidden_units)) in
      match check_size visible_units, check_size hidden_units with
      | Return v, Return h =>
          finish v h
            (tabulate v h
               (fun i j => - xavier_value
                           + src drawn i j * (2 * xavier_value)))
      | Raise e, _ => Raise e
      | _, Raise e => Raise e
      end.

(** ** What the methods compute, without the monad

    The same tensors as pure functions of the object, the generator and the
    input: the statements below name intermediate results through them. *)

Definition hidden_prob (s : RBM) (X : tensor) : tensor :=
  relu (add_bias_t (matmul_t X (W s)) (h_bias s)).

Definition visible_prob (s : RBM) (H : tensor) : tensor :=
  relu (add_bias_t (matmul_t H (transpose (W s))) (v_bias s)).

(** The sample [sampling] returns for [P] when the generator is at [c]. *)
Definition sample_at (src : nat -> nat -> nat -> Q) (c : nat) (P : tensor)
  : tensor :=
  ge_float_t P (tabulate (rows P) (cols P) (src c)).

(** The locals after [n] passes of the negative-phase loop entered with the
    generator at [c]. *)
Fixpoint gibbs_chain (s : RBM) (src : nat -> nat -> nat -> Q) (c n : nat)
    (ha : tensor) (vp hp : option tensor) : option tensor * option tensor :=
  match n with
  | O => (vp, hp)
  | S n' =>
      let vp' := visible_prob s ha in
      let hp' := hidden_prob s vp' in
      gibbs_chain s src (S (S c)) n' (sample_at src (S c) hp')
        (Some vp') (Some hp')
  end.

(** The locals [prob_v_] and [v] after [n] passes of the loop of
    [reconstruct]. *)
Fixpoint reconstruct_chain (s : RBM) (src : nat -> nat -> nat -> Q)
    (c n : nat) (pv : option tensor) (v : tensor) : option tensor * tensor :=
  match n with
  | O => (pv, v)
  | S n' =>
      let pv' := visible_prob s (hidden_prob s v) in
      reconstruct_chain s src (S (S c)) n' (Some pv')
        (sample_at src (S c) pv')
  end.

(** The negative-phase visible reconstruction and hidden activation of a
    call of [contrastive_divergence] in world [w] on [V0] with [n] Gibbs
    steps; an all-empty tensor stands in when the loop has bound nothing. *)
Definition negative_phase (w : world) (V0 : tensor) (n : nat)
  : option tensor * option tensor :=
  gibbs_chain (self w) (source w) (S (drawn w)) n
    (sample_at (source w) (drawn w) (hidden_prob (self w) V0)) None None.

Definition or_empty (t : option tensor) : tensor :=
  match t with Some x => x | None => mkTensor 0 0 [] end.

Definition negative_visible (w : world) (V0 : tensor) (n : nat) : tensor :=
  or_empty (fst (negative_phase w V0 n)).

Definition negative_hidden (w : world) (V0 : tensor) (n : nat) : tensor :=
  or_empty (snd (negative_phase w V0 n)).

(** The shapes the constructor fixes. *)
Definition well_shaped (s : RBM) : Prop :=
  visible_units s = Z.of_nat (rows (W s)) /\
  hidden_units s = Z.of_nat (cols (W s)) /\
  length (h_bias s) = cols (W s) /\
  length (v_bias s) = rows (W s) /\
  length (v_bias_update s) = rows (W s) /\
  length (h_bias_update s) = cols (W s) /\
  rows (grad_update s) = rows (W s) /\
  cols (grad_update s) = cols (W s).

(** The world after [n] more tensors have been drawn. *)
Definition advance (n : nat) (w : world) : world :=
  mkWorld (self w) (source w) (n + drawn w).

(** The accumulators a training call computes, and the object it leaves. *)
Definition new_grad_update (s : RBM) (pos neg : tensor) (lr : Q) : tensor :=
  add_t (scale_t (momentum s) (grad_update s))
    (scale_t lr
       (sub_t (div_t (sub_t pos neg) (inject_Z (batch_size s)))
          (scale_t (weight_decay s) (W s)))).

Definition new_bias_update (s : RBM) (old : vec) (a b : tensor) (lr : Q)
  : vec :=
  vadd_t (vscale (momentum s) old)
    (vdiv (vscale lr (sum_dim0 (sub_t a b))) (inject_Z (batch_size s))).

Definition updated (s : RBM) (gu : tensor) (vu hu : vec) : RBM :=
  set_h_bias (vadd_t (h_bias s) hu)
    (set_v_bias (vadd_t (v_bias s) vu)
       (set_W (add_t (W s) gu)
          (set_h_bias_update hu
             (set_v_bias_update vu (set_grad_update gu s))))).

(** The object after a training call on [V0] with [n] Gibbs steps. *)
Definition trained (w : world) (V0 : tensor) (n : nat) (lr : Q) : RBM :=
  let s := self w in
  let php := hidden_prob s V0 in
  let nvp := negative_visible w V0 n in
  let nhp := negative_hidden w V0 n in
  updated s
    (new_grad_update s (matmul_t (transpose V0) php)
       (matmul_t (transpose nvp) nhp) lr)
    (new_bias_update s (v_bias_update s) V0 nvp lr)
    (new_bias_update s (h_bias_update s) php nhp lr).

(** The reconstruction error [contrastive_divergence] reports for [V0]
    against the reconstruction [R]. *)
Definition error_of (V0 R : tensor) : Q :=
  mean_v (sum_dim0 (square_t (sub_t V0 R))).

(** ** The schedule of [step], as a function of the object

    The Gibbs-step count and the learning rate [step] derives before it
    touches the object, or the exception the derivation ends in. *)

Definition gibbs_steps (s : RBM) (epoch num_epochs : Z) : outcome Z :=
  if increase_to_cd_k s then
    if (num_epochs =? 0)%Z then Raise ZeroDivisionError
    else ceil_float
           (float_mul_int
              (SFdiv 53 1024 (float_of_int epoch) (float_of_int num_epochs))
              (k s))
  else Return (k s).

Definition step_lr (s : RBM) (epoch : Z) : outcome Q :=
  if learning_rate_decay s then
    if (epoch =? 0)%Z then Raise ZeroDivisionError
    else Return (learning_rate s / inject_Z epoch)
  else Return (learning_rate s).

Definition schedule (s : RBM) (epoch num_epochs : Z) : outcome (Z * Q) :=
  match gibbs_steps s epoch num_epochs with
  | Raise e => Raise e
  | Return n =>
      match step_lr s epoch with
      | Raise e => Raise e
      | Return lr => Return (n, lr)
      end
  end.

(** The object with which a [step] at [epoch] enters
    [contrastive_divergence]. *)
Definition switch_momentum (epoch : Z) (s : RBM) : RBM :=
  if (5 <? epoch)%Z then set_momentum (final_momentum s) s else s.

(** A run of [step] calls, each given as (batch, epoch, num_epochs), that
    ends at the first exception.  The result lists, call by call, the
    momentum found in the object when the call has returned. *)
Fixpoint run_steps (calls : list (tensor * Z * Z)) (w : world) : list Q :=
  match calls with
  | [] => []
  | (batch, epoch, num_epochs) :: rest =>
      match step batch epoch num_epochs w with
      | (Return _, w') => momentum (self w') :: run_steps rest w'
      | (Raise _, _) => []
      end
  end.

Definition epochs_of (calls : list (tensor * Z * Z)) : list Z :=
  map (fun c => snd (fst c)) calls.

(** A computation leaves the value [f] reads off the object alone,
    whether it returns or raises. *)
Definition keeps {X A : Type} (f : RBM -> X) (c : M A) : Prop :=
  forall w, f (self (snd (c w))) = f (self w).

(** ** Readings of the specification

    The quantities and rules below follow the sentences of the
    specification, not the code; the properties compare the two. *)

Definition sq_diff (V0 R : tensor) (i j : nat) : Q :=
  (entry V0 i j - entry R i j) * (entry V0 i j - entry R i j).

(** "the sum of squared differences, summed over features, then averaged
    over the batch axis" *)
Definition per_sample_mean_error (V0 R : tensor) : Q :=
  sum_n (rows V0) (fun i => sum_n (cols V0) (fun j => sq_diff V0 R i j))
  / inject_Z (Z.of_nat (rows V0)).

(** The squared differences summed down the batch for each feature, then
    averaged over the features. *)
Definition per_feature_mean_error (V0 R : tensor) : Q :=
  sum_n (cols V0) (fun j => sum_n (rows V0) (fun i => sq_diff V0 R i j))
  / inject_Z (Z.of_nat (cols V0)).

(** The update rule for the weights and the visible bias with divisor [N],
    relating the object [s] before a training call on [V0] to the object
    [s'] after it; [php], [nvp] and [nhp] are the positive hidden
    activation and the negative-phase reconstruction and activation. *)
Definition update_rule (N : Q) (lr : Q) (V0 php nvp nhp : tensor)
    (s s' : RBM) : Prop :=
  (forall i j : nat, (i < rows (W s))%nat -> (j < cols (W s))%nat ->
     entry (grad_update s') i j
     == momentum s * entry (grad_update s) i j
        + lr * ((sum_n (rows V0) (fun r => entry V0 r i * entry php r j)
                 - sum_n (rows V0) (fun r => entry nvp r i * entry nhp r j))
                / N
                - weight_decay s * entry (W s) i j)
     /\ entry (W s') i j == entry (W s) i j + entry (grad_update s') i j) /\
  (forall j : nat, (j < rows (W s))%nat ->
     vnth (v_bias_update s') j
     == momentum s * vnth (v_bias_update s) j
        + lr * (sum_n (rows V0) (fun r => entry V0 r j - entry nvp r j) / N)
     /\ vnth (v_bias s') j == vnth (v_bias s) j + vnth (v_bias_update s') j).

(** The blend of the three accumulators with momentum [m]: what a
    training call on [V0] with learning rate [lr] makes of the
    accumulators of [s], giving those of [s']. *)
Definition momentum_blend (m lr : Q) (V0 php nvp nhp : tensor)
    (s s' : RBM) : Prop :=
  (forall i j : nat, (i < rows (W s))%nat -> (j < cols (W s))%nat ->
     entry (grad_update s') i j
     == m * entry (grad_update s) i j
        + lr * ((sum_n (rows V0) (fun r => entry V0 r i * entry php r j)
                 - sum_n (rows V0) (fun r => entry nvp r i * entry nhp r j))
                / inject_Z (batch_size s)
                - weight_decay s * entry (W s) i j)) /\
  (forall j : nat, (j < rows (W s))%nat ->
     vnth (v_bias_update s') j
     == m * vnth (v_bias_update s) j
        + lr * (sum_n (rows V0) (fun r => entry V0 r j - entry nvp r j)
                / inject_Z (batch_size s))) /\
  (forall j : nat, (j < cols (W s))%nat ->
     vnth (h_bias_update s') j
     == m * vnth (h_bias_update s) j
        + lr * (sum_n (rows V0) (fun r => entry php r j - entry nhp r j)
                / inject_Z (batch_size s))).

(** "reconstruction_error(batch) -> scalar error" *)
Definition is_scalar (v : pyvalue) : Prop :=
  match v with
  | Scalar _ => True
  | Tuple _ => False
  end.

(** The ranges the specification gives the hyperparameters. *)
Definition valid_construction (visible_units hidden_units k : Z)
    (weight_decay initial_momentum final_momentum : Q) : Prop :=
  (0 < visible_units)%Z /\ (0 < hidden_units)%Z /\ (1 <= k)%Z /\
  0 <= weight_decay /\
  (0 <= initial_momentum /\ initial_momentum < 1) /\
  (0 <= final_momentum /\ final_momentum < 1).

Definition valid_training (num_epochs batch_size : Z) : Prop :=
  (0 < num_epochs)%Z /\ (0 < batch_size)%Z.

(** The least integer not below [a / b], for [b > 0]. *)
Definition exact_ceil_div (a b : Z) : Z := (- ((- a) / b))%Z.

(** ** Objects the examples run on *)

(** [RBM(visible_units=2, hidden_units=1, k=1, learning_rate=1,
    weight_decay=0)] built with a generator whose every number is [u]. *)
Definition small_rbm (u : Q) : RBM :=
  mkRBM 2 1 1 1 false 0 (1 # 2) (9 # 10) false false false 16
    (tabulate 2 1 (fun _ _ => u * (1 # 10)))
    (vzeros 1) (vzeros 2) (vzeros 2) (vzeros 1) (zeros 2 1).

Definition small_world (u : Q) : world :=
  mkWorld (small_rbm u) (fun _ _ _ => u) 1.

(** One sample with both features on. *)
Definition ones_batch : tensor := tensor_of_rows 2 [[1; 1]].

(** [RBM(visible_units=1, hidden_units=1, k=25, increase_to_cd_k=True)],
    the other arguments at their defaults. *)
Definition ramp_rbm : RBM :=
  mkRBM 1 1 25 (1 # 100000) false (2 # 10000) (1 # 2) (9 # 10)
    false true false 16
    (tabulate 1 1 (fun _ _ => (1 # 2) * (1 # 10)))
    (vzeros 1) (vzeros 1) (vzeros 1) (vzeros 1) (zeros 1 1).

Definition ramp_world : world := mkWorld ramp_rbm (fun _ _ _ => 1 # 2) 1.

(** One sample with its one feature on. *)
Definition one_batch : tensor := tensor_of_rows 1 [[1]].

(** Whether the double-precision ramp of [step] gives the exact ceiling
    of [epoch * k / num_epochs] at every epoch of every schedule with
    [k <= kmax] and [num_epochs <= nmax]. *)
Definition ramp_is_exact (kmax nmax : nat) : bool :=
  forallb (fun k' =>
    forallb (fun ne =>
      forallb (fun e =>
        match ceil_float
                (float_mul_int
                   (SFdiv 53 1024 (float_of_int (Z.of_nat e))
                      (float_of_int (Z.of_nat ne)))
                   (Z.of_nat k')) with
        | Return n =>
            (n =? exact_ceil_div (Z.of_nat e * Z.of_nat k') (Z.of_nat ne))%Z
        | Raise _ => false
        end) (seq 1 ne)) (seq 1 nmax)) (seq 1 kmax).

(** [RBM(visible_units=2, hidden_units=1, k=0)] with decaying learning
    rate, built like [small_rbm]. *)
Definition idle_rbm : RBM :=
  mkRBM 2 1 0 1 true 0 (1 # 2) (9 # 10) false false false 16
    (tabulate 2 1 (fun _ _ => (1 # 2) * (1 # 10)))
    (vzeros 1) (vzeros 2) (vzeros 2) (vzeros 1) (zeros 2 1).

Definition idle_world : world := mkWorld idle_rbm (fun _ _ _ => 1 # 2) 1.

(** The learning rate a [step] at [epoch] hands to the estimator. *)
Definition epoch_lr (s : RBM) (epoch : Z) : Q :=
  if learning_rate_decay s then learning_rate s / inject_Z epoch
  else learning_rate s.

(** Whether a loader yields at least one batch. *)
Definition yields_batches (train_loader : list tensor) : bool :=
  match train_loader with
  | [] => false
  | _ :: _ => true
  end.

(** Whether the ramp of [step] at epoch [e] of [ne], aiming at [k']
    steps, is the exact ceiling of [e * k' / ne], stays between [1] and
    [k'], and is [k'] at the last epoch. *)
Definition ramp_step_ok (k' ne e : nat) : bool :=
  match ceil_float
          (float_mul_int
             (SFdiv 53 1024 (float_of_int (Z.of_nat e))
                (float_of_int (Z.of_nat ne)))
             (Z.of_nat k')) with
  | Return n =>
      (1 <=? n)%Z && (n <=? Z.of_nat k')%Z
      && (n =? exact_ceil_div (Z.of_nat e * Z.of_nat k') (Z.of_nat ne))%Z
      && (if (e =? ne)%nat then (n =? Z.of_nat k')%Z else true)
  | Raise _ => false
  end.

(** The same at every epoch of every schedule with [k <= kmax] and
    [num_epochs <= nmax]. *)
Definition ramp_in_range (kmax nmax : nat) : bool :=
  forallb (fun k' =>
    forallb (fun ne => forallb (ramp_step_ok k' ne) (seq 1 ne))
      (seq 1 nmax)) (seq 1 kmax).

(** [RBM(visible_units=1, hidden_units=1, k=4, increase_to_cd_k=True)]. *)
Definition ramp4_rbm : RBM :=
  mkRBM 1 1 4 (1 # 100000) false (2 # 10000) (1 # 2) (9 # 10)
    false true false 16
    (tabulate 1 1 (fun _ _ => (1 # 2) * (1 # 10)))
    (vzeros 1) (vzeros 1) (vzeros 1) (vzeros 1) (zeros 1 1).

(** The world [small_world (1 # 2)] has become after one step at epoch 5
    of 10 on [ones_batch]. *)
Definition after_epoch_5 : world :=
  Eval vm_compute in snd (step ones_batch 5 10 (small_world (1 # 2))).

(** The settings no method assigns after construction. *)
Definition hyperparameters (s : RBM)
  : Z * Z * Z * Q * bool * Q * Q * bool * bool * bool :=
  (visible_units s, hidden_units s, k s, learning_rate s,
   learning_rate_decay s, weight_decay s, final_momentum s, xavier_init s,
   increase_to_cd_k s, use_gpu s).

Unset Implicit Arguments.

(** * Properties *)

(** ** Tensors built by [tabulate] *)

Lemma nth_map_seq {A : Type} (f : nat -> A) (d : A) {n i : nat} :
  (i < n)%nat -> nth i (map f (seq 0 n)) d = f i.
Proof.
  intros Hi.
  rewrite (nth_indep _ d (f 0%nat)) by (rewrite length_map, length_seq; exact Hi).
  rewrite map_nth, seq_nth by exact Hi.
  reflexivity.
Qed.

Lemma entry_tabulate (n m : nat) (f : nat -> nat -> Q) (i j : nat) :
  (i < n)%nat -> (j < m)%nat -> entry (tabulate n m f) i j = f i j.
Proof.
  intros Hi Hj. unfold entry, tabulate; simpl.
  rewrite (nth_map_seq (fun i => map (f i) (seq 0 m)) [] Hi).
  apply nth_map_seq; exact Hj.
Qed.

Lemma vnth_vtab (n : nat) (f : nat -> Q) (j : nat) :
  (j < n)%nat -> vnth (vtab n f) j = f j.
Proof. intros Hj. apply nth_map_seq; exact Hj. Qed.

Lemma length_vtab (n : nat) (f : nat -> Q) : length (vtab n f) = n.
Proof. unfold vtab. rewrite length_map, length_seq. reflexivity. Qed.

Lemma wf_tabulate (n m : nat) (f : nat -> nat -> Q) :
  wf_tensor (tabulate n m f).
Proof.
  split; simpl.
  - rewrite length_map, length_seq. reflexivity.
  - apply Forall_forall. intros r Hr.
    apply in_map_iff in Hr. destruct Hr as [i [<- _]].
    rewrite length_map, length_seq. reflexivity.
Qed.

Lemma vnth_vscale (c : Q) (v : vec) (j : nat) :
  (j < length v)%nat -> vnth (vscale c v) j = c * vnth v j.
Proof.
  intros Hj. unfold vnth, vscale.
  rewrite (nth_indep _ 0 (c * 0)) by (rewrite length_map; exact Hj).
  apply (map_nth (Qmult c)).
Qed.

Lemma vnth_vdiv (v : vec) (c : Q) (j : nat) :
  (j < length v)%nat -> vnth (vdiv v c) j = vnth v j / c.
Proof.
  intros Hj. unfold vnth, vdiv.
  rewrite (nth_indep _ 0 (0 / c)) by (rewrite length_map; exact Hj).
  apply (map_nth (fun x => x / c)).
Qed.

Lemma length_vscale (c : Q) (v : vec) : length (vscale c v) = length v.
Proof. apply length_map. Qed.

Lemma length_vdiv (v : vec) (c : Q) : length (vdiv v c) = length v.
Proof. apply length_map. Qed.

(** ** Sums *)

Lemma sum_n_ext (n : nat) (f g : nat -> Q) :
  (forall i, (i < n)%nat -> f i == g i) -> sum_n n f == sum_n n g.
Proof.
  induction n as [|n IH]; intros H; simpl.
  - reflexivity.
  - rewrite IH by (intros i Hi; apply H; lia).
    rewrite (H n) by lia. reflexivity.
Qed.

Lemma sum_n_plus (n : nat) (f g : nat -> Q) :
  sum_n n (fun i => f i + g i) == sum_n n f + sum_n n g.
Proof.
  induction n as [|n IH]; simpl.
  - reflexivity.
  - rewrite IH. ring.
Qed.

Lemma sum_n_zero (n : nat) : sum_n n (fun _ => 0) == 0.
Proof.
  induction n as [|n IH]; simpl.
  - reflexivity.
  - rewrite IH. ring.
Qed.

(** Summing a table by rows or by columns gives the same total. *)
Lemma sum_n_swap (n m : nat) (f : nat -> nat -> Q) :
  sum_n n (fun i => sum_n m (fun j => f i j))
  == sum_n m (fun j => sum_n n (fun i => f i j)).
Proof.
  induction n as [|n IH]; simpl.
  - symmetry. apply sum_n_zero.
  - rewrite IH. symmetry. apply sum_n_plus.
Qed.


(** ** Entry-wise operations *)

Lemma relu_q_max (x : Q) : relu_q x == Qmax 0 x.
Proof.
  unfold relu_q. destruct (Qle_bool 0 x) eqn:E.
  - apply Qle_bool_iff in E. symmetry. apply Q.max_r. exact E.
  - symmetry. apply Q.max_l. apply Qlt_le_weak. apply Qnot_le_lt.
    intros H. apply Qle_bool_iff in H. congruence.
Qed.

Lemma ge_float_binary (p u : Q) : ge_float p u = 0 \/ ge_float p u = 1.
Proof. unfold ge_float. destruct (Qle_bool u p); [right | left]; reflexivity. Qed.

Lemma ge_float_true (p u : Q) : u <= p -> ge_float p u = 1.
Proof.
  intros H. unfold ge_float. apply Qle_bool_iff in H. rewrite H. reflexivity.
Qed.

Lemma ge_float_false (p u : Q) : p < u -> ge_float p u = 0.
Proof.
  intros H. unfold ge_float. destruct (Qle_bool u p) eqn:E; [|reflexivity].
  apply Qle_bool_iff in E. exfalso. exact (Qlt_not_le _ _ H E).
Qed.

(** ** Running the monad *)

Lemma bind_run {A B : Type} {c : M A} (f : A -> M B) {w w' : world} {a : A} :
  c w = (Return a, w') -> bind c f w = f a w'.
Proof. intros H. unfold bind. rewrite H. reflexivity. Qed.

Lemma bind_raise {A B : Type} {c : M A} (f : A -> M B) {w w' : world}
    {e : exn} :
  c w = (Raise e, w') -> bind c f w = (Raise e, w').
Proof. intros H. unfold bind. rewrite H. reflexivity. Qed.

Lemma matmul_run (A B : tensor) (w : world) :
  cols A = rows B -> matmul A B w = (Return (matmul_t A B), w).
Proof.
  intros H. unfold matmul. rewrite H, Nat.eqb_refl. reflexivity.
Qed.

Lemma add_bias_run (A : tensor) (b : vec) (w : world) :
  cols A = length b -> add_bias A b w = (Return (add_bias_t A b), w).
Proof.
  intros H. unfold add_bias. rewrite H, Nat.eqb_refl. reflexivity.
Qed.

Lemma same_shape_true (A B : tensor) :
  rows A = rows B -> cols A = cols B -> same_shape A B = true.
Proof.
  intros H1 H2. unfold same_shape. rewrite H1, H2, !Nat.eqb_refl. reflexivity.
Qed.

Lemma sub_run (A B : tensor) (w : world) :
  rows A = rows B -> cols A = cols B -> sub A B w = (Return (sub_t A B), w).
Proof.
  intros H1 H2. unfold sub. rewrite same_shape_true by assumption. reflexivity.
Qed.

Lemma add_run (A B : tensor) (w : world) :
  rows A = rows B -> cols A = cols B -> add A B w = (Return (add_t A B), w).
Proof.
  intros H1 H2. unfold add. rewrite same_shape_true by assumption. reflexivity.
Qed.

Lemma vadd_run (a b : vec) (w : world) :
  length a = length b -> vadd a b w = (Return (vadd_t a b), w).
Proof.
  intros H. unfold vadd. rewrite H, Nat.eqb_refl. reflexivity.
Qed.

Lemma sampling_run (P : tensor) (w : world) :
  sampling P w = (Return (sample_at (source w) (drawn w) P), advance 1 w).
Proof. reflexivity. Qed.

Lemma to_hidden_run (X : tensor) (w : world) :
  cols X = rows (W (self w)) ->
  length (h_bias (self w)) = cols (W (self w)) ->
  to_hidden X w =
    (Return (hidden_prob (self w) X,
             sample_at (source w) (drawn w) (hidden_prob (self w) X)),
     advance 1 w).
Proof.
  intros HX Hb. unfold to_hidden.
  rewrite (bind_run (c := get_self) _ (eq_refl (Return (self w), w))).
  rewrite (bind_run _ (matmul_run _ _ w HX)).
  rewrite (bind_run _ (add_bias_run (matmul_t X (W (self w))) _ w
                         (eq_sym Hb))).
  reflexivity.
Qed.

Lemma to_visible_run (H : tensor) (w : world) :
  cols H = cols (W (self w)) ->
  length (v_bias (self w)) = rows (W (self w)) ->
  to_visible H w =
    (Return (visible_prob (self w) H,
             sample_at (source w) (drawn w) (visible_prob (self w) H)),
     advance 1 w).
Proof.
  intros HH Hb. unfold to_visible.
  rewrite (bind_run (c := get_self) _ (eq_refl (Return (self w), w))).
  rewrite (bind_run _ (matmul_run _ (transpose (W (self w))) w HH)).
  rewrite (bind_run _ (add_bias_run
                         (matmul_t H (transpose (W (self w)))) _ w
                         (eq_sym Hb))).
  reflexivity.
Qed.

(** ** The loops *)

Lemma advance_advance (n m : nat) (w : world) :
  advance n (advance m w) = advance (n + m) w.
Proof. unfold advance; simpl. f_equal. lia. Qed.

Lemma gibbs_loop_run (n : nat) :
  forall (ha : tensor) (vp hp : option tensor) (w : world),
    length (h_bias (self w)) = cols (W (self w)) ->
    length (v_bias (self w)) = rows (W (self w)) ->
    cols ha = cols (W (self w)) ->
    gibbs_loop n ha vp hp w =
      (Return (gibbs_chain (self w) (source w) (drawn w) n ha vp hp),
       advance (2 * n) w).
Proof.
  induction n as [|n IH]; intros ha vp hp w Hh Hv Hha.
  - destruct w; reflexivity.
  - cbn [gibbs_loop gibbs_chain].
    rewrite (bind_run _ (to_visible_run ha w Hha Hv)). cbv beta iota zeta.
    rewrite (bind_run _ (to_hidden_run (visible_prob (self w) ha)
                           (advance 1 w) eq_refl Hh)).
    cbv beta iota zeta.
    rewrite IH by (try assumption; reflexivity).
    f_equal. unfold advance; simpl. f_equal. lia.
Qed.

Lemma reconstruct_loop_run (n : nat) :
  forall (pv : option tensor) (v : tensor) (w : world),
    length (h_bias (self w)) = cols (W (self w)) ->
    length (v_bias (self w)) = rows (W (self w)) ->
    cols v = rows (W (self w)) ->
    reconstruct_loop n pv v w =
      (Return (reconstruct_chain (self w) (source w) (drawn w) n pv v),
       advance (2 * n) w).
Proof.
  induction n as [|n IH]; intros pv v w Hh Hv Hc.
  - destruct w; reflexivity.
  - cbn [reconstruct_loop reconstruct_chain].
    rewrite (bind_run _ (to_hidden_run v w Hc Hh)). cbv beta iota zeta.
    rewrite (bind_run _ (to_visible_run (hidden_prob (self w) v)
                           (advance 1 w) eq_refl Hv)).
    cbv beta iota zeta.
    rewrite IH by (try assumption; reflexivity).
    f_equal. unfold advance; simpl. f_equal. lia.
Qed.

(** After at least one pass both locals of the negative phase are bound,
    at the shapes of a visible and of a hidden batch. *)
Lemma gibbs_chain_bound (s : RBM) (src : nat -> nat -> nat -> Q) (n : nat) :
  forall (c : nat) (ha : tensor) (vp hp : option tensor),
  exists vp' hp',
    gibbs_chain s src c (S n) ha vp hp = (Some vp', Some hp') /\
    rows vp' = rows ha /\ cols vp' = rows (W s) /\
    rows hp' = rows ha /\ cols hp' = cols (W s).
Proof.
  induction n as [|n IH]; intros c ha vp hp.
  - exists (visible_prob s ha), (hidden_prob s (visible_prob s ha)).
    repeat split; reflexivity.
  - change (gibbs_chain s src c (S (S n)) ha vp hp)
      with (gibbs_chain s src (S (S c)) (S n)
              (sample_at src (S c) (hidden_prob s (visible_prob s ha)))
              (Some (visible_prob s ha))
              (Some (hidden_prob s (visible_prob s ha)))).
    destruct (IH (S (S c))
                (sample_at src (S c) (hidden_prob s (visible_prob s ha)))
                (Some (visible_prob s ha))
                (Some (hidden_prob s (visible_prob s ha))))
      as (vp' & hp' & E & R1 & C1 & R2 & C2).
    exists vp', hp'. repeat split; assumption.
Qed.

Lemma reconstruct_chain_bound (s : RBM) (src : nat -> nat -> nat -> Q)
    (n : nat) :
  forall (c : nat) (pv : option tensor) (v : tensor),
  exists pv' v',
    reconstruct_chain s src c (S n) pv v = (Some pv', v') /\
    rows pv' = rows v /\ cols pv' = rows (W s) /\
    rows v' = rows v /\ cols v' = rows (W s).
Proof.
  induction n as [|n IH]; intros c pv v.
  - exists (visible_prob s (hidden_prob s v)),
      (sample_at src (S c) (visible_prob s (hidden_prob s v))).
    repeat split; reflexivity.
  - change (reconstruct_chain s src c (S (S n)) pv v)
      with (reconstruct_chain s src (S (S c)) (S n)
              (Some (visible_prob s (hidden_prob s v)))
              (sample_at src (S c) (visible_prob s (hidden_prob s v)))).
    destruct (IH (S (S c)) (Some (visible_prob s (hidden_prob s v)))
                (sample_at src (S c) (visible_prob s (hidden_prob s v))))
      as (pv' & v' & E & R1 & C1 & R2 & C2).
    exists pv', v'. repeat split; assumption.
Qed.

(** ** The parameter update *)

Lemma update_parameters_run (input pos neg php nvp nhp : tensor) (lr : Q)
    (w : world) :
  well_shaped (self w) ->
  rows pos = rows (W (self w)) -> cols pos = cols (W (self w)) ->
  rows neg = rows (W (self w)) -> cols neg = cols (W (self w)) ->
  rows input = rows nvp -> cols input = cols nvp ->
  cols input = rows (W (self w)) ->
  rows php = rows nhp -> cols php = cols nhp ->
  cols php = cols (W (self w)) ->
  update_parameters input pos neg php nvp nhp lr w =
    (Return tt,
     mkWorld
       (updated (self w)
          (new_grad_update (self w) pos neg lr)
          (new_bias_update (self w) (v_bias_update (self w)) input nvp lr)
          (new_bias_update (self w) (h_bias_update (self w)) php nhp lr))
       (source w) (drawn w)).
Proof.
  intros (_ & _ & Hhb & Hvb & Hvu & Hhu & Hgr & Hgc)
    Hpr Hpc Hnr Hnc Hir Hic Hiw Hhr Hhc Hhw.
  unfold update_parameters.
  rewrite (bind_run (c := get_self) _ (eq_refl (Return (self w), w))).
  rewrite (bind_run _ (sub_run pos neg w
                         (eq_trans Hpr (eq_sym Hnr))
                         (eq_trans Hpc (eq_sym Hnc)))).
  rewrite (bind_run _ (sub_run
                         (div_t (sub_t pos neg)
                            (inject_Z (batch_size (self w))))
                         (scale_t (weight_decay (self w)) (W (self w)))
                         w Hpr Hpc)).
  rewrite (bind_run _ (add_run
                         (scale_t (momentum (self w)) (grad_update (self w)))
                         (scale_t lr
                            (sub_t
                               (div_t (sub_t pos neg)
                                  (inject_Z (batch_size (self w))))
                               (scale_t (weight_decay (self w))
                                  (W (self w)))))
                         w (eq_trans Hgr (eq_sym Hpr))
                         (eq_trans Hgc (eq_sym Hpc)))).
  unfold bind at 1, modify_self at 1. cbv beta iota.
  rewrite (bind_run _ (sub_run input nvp _ Hir Hic)).
  rewrite (bind_run _ (vadd_run
                         (vscale (momentum (self w)) (v_bias_update (self w)))
                         (vdiv (vscale lr (sum_dim0 (sub_t input nvp)))
                            (inject_Z (batch_size (self w)))) _
                         ltac:(rewrite length_vscale, length_vdiv,
                                 length_vscale; unfold sum_dim0;
                               rewrite length_vtab; simpl; congruence))).
  unfold bind at 1, modify_self at 1. cbv beta iota.
  rewrite (bind_run _ (sub_run php nhp _ Hhr Hhc)).
  rewrite (bind_run _ (vadd_run
                         (vscale (momentum (self w)) (h_bias_update (self w)))
                         (vdiv (vscale lr (sum_dim0 (sub_t php nhp)))
                            (inject_Z (batch_size (self w)))) _
                         ltac:(rewrite length_vscale, length_vdiv,
                                 length_vscale; unfold sum_dim0;
                               rewrite length_vtab; simpl; congruence))).
  unfold bind at 1, modify_self at 1. cbv beta iota.
  rewrite (bind_run _ (add_run (W (self w))
                         (new_grad_update (self w) pos neg lr) _
                         (eq_sym Hgr) (eq_sym Hgc))).
  unfold bind at 1, modify_self at 1. cbv beta iota.
  rewrite (bind_run _ (vadd_run (v_bias (self w))
                         (new_bias_update (self w) (v_bias_update (self w))
                            input nvp lr) _
                         ltac:(unfold new_bias_update, vadd_t;
                               rewrite length_vtab, length_vscale;
                               congruence))).
  unfold bind at 1, modify_self at 1. cbv beta iota.
  rewrite (bind_run _ (vadd_run (h_bias (self w))
                         (new_bias_update (self w) (h_bias_update (self w))
                            php nhp lr) _
                         ltac:(unfold new_bias_update, vadd_t;
                               rewrite length_vtab, length_vscale;
                               congruence))).
  reflexivity.
Qed.

(** ** [contrastive_divergence], run *)

Lemma read_local_some {A : Type} (a : A) (w : world) :
  read_local (Some a) w = (Return a, w).
Proof. reflexivity. Qed.

Lemma contrastive_divergence_run (V0 : tensor) (training : bool) (n : Z)
    (lr : Q) (w : world) :
  well_shaped (self w) ->
  cols V0 = rows (W (self w)) ->
  (1 <= n)%Z ->
  let s' := if training then trained w V0 (Z.to_nat n) lr else self w in
  contrastive_divergence V0 training n lr w =
    (Return (Tuple [error_of V0 (negative_visible w V0 (Z.to_nat n));
                    sum_all (abs_t (grad_update s'))]),
     mkWorld s' (source w) (1 + 2 * Z.to_nat n + drawn w)).
Proof.
  intros Hs HV Hn s'.
  pose proof Hs as (_ & _ & Hhb & Hvb & _).
  destruct (Z.to_nat n) as [|m] eqn:Em; [lia|].
  unfold contrastive_divergence.
  rewrite (bind_run _ (to_hidden_run V0 w HV Hhb)). cbv beta iota zeta.
  rewrite (bind_run _ (matmul_run (transpose V0)
                         (hidden_prob (self w) V0) _ eq_refl)).
  rewrite Em.
  rewrite (bind_run _ (gibbs_loop_run (S m)
                         (sample_at (source w) (drawn w)
                            (hidden_prob (self w) V0))
                         None None (advance 1 w) Hhb Hvb eq_refl)).
  assert (Eneg : negative_phase w V0 (S m) =
                 gibbs_chain (self (advance 1 w)) (source (advance 1 w))
                   (drawn (advance 1 w)) (S m)
                   (sample_at (source w) (drawn w) (hidden_prob (self w) V0))
                   None None) by reflexivity.
  rewrite <- Eneg.
  assert (Hnv : negative_visible w V0 (S m)
                = or_empty (fst (negative_phase w V0 (S m)))) by reflexivity.
  assert (Hnh : negative_hidden w V0 (S m)
                = or_empty (snd (negative_phase w V0 (S m)))) by reflexivity.
  assert (Htr : trained w V0 (S m) lr =
    updated (self w)
      (new_grad_update (self w)
         (matmul_t (transpose V0) (hidden_prob (self w) V0))
         (matmul_t (transpose (negative_visible w V0 (S m)))
            (negative_hidden w V0 (S m))) lr)
      (new_bias_update (self w) (v_bias_update (self w)) V0
         (negative_visible w V0 (S m)) lr)
      (new_bias_update (self w) (h_bias_update (self w))
         (hidden_prob (self w) V0) (negative_hidden w V0 (S m)) lr))
    by reflexivity.
  destruct (gibbs_chain_bound (self w) (source w) m (S (drawn w))
              (sample_at (source w) (drawn w) (hidden_prob (self w) V0))
              None None) as (vp & hp & E & R1 & C1 & R2 & C2).
  change (gibbs_chain (self w) (source w) (S (drawn w)) (S m)
            (sample_at (source w) (drawn w) (hidden_prob (self w) V0))
            None None) with (negative_phase w V0 (S m)) in E.
  rewrite E in Hnv, Hnh |- *. simpl in Hnv, Hnh.
  rewrite Hnv, Hnh in Htr. rewrite Hnv. clear Hnv Hnh Eneg E.
  change (rows (sample_at (source w) (drawn w) (hidden_prob (self w) V0)))
    with (rows V0) in R1, R2.
  cbv beta iota zeta.
  rewrite (bind_run _ (read_local_some vp _)).
  rewrite (bind_run _ (read_local_some hp _)).
  rewrite (bind_run _ (matmul_run (transpose vp) hp _
                         (eq_trans R1 (eq_sym R2)))).
  destruct training.
  - rewrite (bind_run _ (update_parameters_run V0
                           (matmul_t (transpose V0) (hidden_prob (self w) V0))
                           (matmul_t (transpose vp) hp)
                           (hidden_prob (self w) V0) vp hp lr
                           (advance (2 * S m) (advance 1 w)) Hs
                           HV eq_refl C1 C2 (eq_sym R1)
                           (eq_trans HV (eq_sym C1)) HV
                           (eq_sym R2) (eq_sym C2) eq_refl)).
    rewrite (bind_run _ (sub_run V0 vp _ (eq_sym R1)
                           (eq_trans HV (eq_sym C1)))).
    subst s'. rewrite Htr.
    unfold bind, get_self, ret, advance, error_of; simpl.
    repeat f_equal; lia.
  - rewrite (bind_run (c := ret tt) _ (eq_refl (Return tt, _))).
    rewrite (bind_run _ (sub_run V0 vp _ (eq_sym R1)
                           (eq_trans HV (eq_sym C1)))).
    subst s'.
    unfold bind, get_self, ret, advance, error_of; simpl.
    repeat f_equal; lia.
Qed.

(** ** What a computation leaves alone *)

Section Keeps.
Context {X : Type} (f : RBM -> X).

Lemma keeps_ret {A : Type} (a : A) : keeps f (ret a).
Proof. intros w. reflexivity. Qed.

Lemma keeps_raise {A : Type} (e : exn) : keeps f (raise (A := A) e).
Proof. intros w. reflexivity. Qed.

Lemma keeps_bind {A B : Type} (c : M A) (g : A -> M B) :
  keeps f c -> (forall a, keeps f (g a)) -> keeps f (bind c g).
Proof.
  intros Hc Hg w. unfold bind.
  specialize (Hc w). destruct (c w) as [[a|e] w1]; simpl in *.
  - rewrite Hg. exact Hc.
  - exact Hc.
Qed.

Lemma keeps_get_self : keeps f get_self.
Proof. intros w. reflexivity. Qed.

Lemma keeps_modify_self (g : RBM -> RBM) :
  (forall s, f (g s) = f s) -> keeps f (modify_self g).
Proof. intros H w. simpl. apply H. Qed.

Lemma keeps_read_local {A : Type} (x : option A) : keeps f (read_local x).
Proof. destruct x; intros w; reflexivity. Qed.

Lemma keeps_matmul (A B : tensor) : keeps f (matmul A B).
Proof. intros w. unfold matmul. destruct (_ =? _)%nat; reflexivity. Qed.

Lemma keeps_add_bias (A : tensor) (b : vec) : keeps f (add_bias A b).
Proof. intros w. unfold add_bias. destruct (_ =? _)%nat; reflexivity. Qed.

Lemma keeps_sub (A B : tensor) : keeps f (sub A B).
Proof. intros w. unfold sub. destruct (same_shape A B); reflexivity. Qed.

Lemma keeps_add (A B : tensor) : keeps f (add A B).
Proof. intros w. unfold add. destruct (same_shape A B); reflexivity. Qed.

Lemma keeps_vadd (a b : vec) : keeps f (vadd a b).
Proof. intros w. unfold vadd. destruct (_ =? _)%nat; reflexivity. Qed.

Lemma keeps_sampling (P : tensor) : keeps f (sampling P).
Proof. intros w. reflexivity. Qed.

Lemma keeps_to_hidden (Y : tensor) : keeps f (to_hidden Y).
Proof.
  unfold to_hidden.
  repeat (apply keeps_bind; [|intros ?]);
    auto using keeps_get_self, keeps_matmul, keeps_add_bias,
      keeps_sampling, keeps_ret.
Qed.

Lemma keeps_to_visible (Y : tensor) : keeps f (to_visible Y).
Proof.
  unfold to_visible.
  repeat (apply keeps_bind; [|intros ?]);
    auto using keeps_get_self, keeps_matmul, keeps_add_bias,
      keeps_sampling, keeps_ret.
Qed.

Lemma keeps_gibbs_loop (n : nat) :
  forall ha vp hp, keeps f (gibbs_loop n ha vp hp).
Proof.
  induction n as [|n IH]; intros ha vp hp; simpl.
  - apply keeps_ret.
  - apply keeps_bind; [apply keeps_to_visible|intros [vp' x]].
    apply keeps_bind; [apply keeps_to_hidden|intros [hp' ha']].
    apply IH.
Qed.

Lemma keeps_reconstruct_loop (n : nat) :
  forall pv v, keeps f (reconstruct_loop n pv v).
Proof.
  induction n as [|n IH]; intros pv v; simpl.
  - apply keeps_ret.
  - apply keeps_bind; [apply keeps_to_hidden|intros [ph x]].
    apply keeps_bind; [apply keeps_to_visible|intros [pv' v']].
    apply IH.
Qed.

Lemma keeps_reconstruct (Y : tensor) (n : Z) : keeps f (reconstruct Y n).
Proof.
  unfold reconstruct.
  apply keeps_bind; [apply keeps_reconstruct_loop|intros [pv v]].
  apply keeps_bind; [apply keeps_read_local|intros pv'].
  apply keeps_ret.
Qed.

(** An evaluation call keeps everything; a training call keeps whatever
    the six assignments of the update keep. *)
Lemma keeps_contrastive_divergence (V0 : tensor) (training : bool) (n : Z)
    (lr : Q) :
  (training = true ->
   forall s,
     (forall T, f (set_grad_update T s) = f s) /\
     (forall T, f (set_W T s) = f s) /\
     (forall v, f (set_v_bias_update v s) = f s) /\
     (forall v, f (set_h_bias_update v s) = f s) /\
     (forall v, f (set_v_bias v s) = f s) /\
     (forall v, f (set_h_bias v s) = f s)) ->
  keeps f (contrastive_divergence V0 training n lr).
Proof.
  intros Hset. unfold contrastive_divergence.
  apply keeps_bind; [apply keeps_to_hidden|intros [php pha]].
  apply keeps_bind; [apply keeps_matmul|intros pos].
  apply keeps_bind; [apply keeps_gibbs_loop|intros [vp hp]].
  apply keeps_bind; [apply keeps_read_local|intros nvp].
  apply keeps_bind; [apply keeps_read_local|intros nhp].
  apply keeps_bind; [apply keeps_matmul|intros neg].
  apply keeps_bind.
  - destruct training; [|apply keeps_ret].
    specialize (Hset eq_refl).
    unfold update_parameters.
    repeat (apply keeps_bind; [|intros ?]);
      auto using keeps_get_self, keeps_sub, keeps_add, keeps_vadd;
      apply keeps_modify_self; intros s0; apply (Hset s0).
  - intros _.
    apply keeps_bind; [apply keeps_sub|intros d].
    apply keeps_bind; [apply keeps_get_self|intros s0].
    apply keeps_ret.
Qed.
End Keeps.

(** ** [step], unfolded *)

Lemma step_unfold (batch : tensor) (epoch num_epochs : Z) (w : world) :
  step batch epoch num_epochs w =
    match schedule (self w) epoch num_epochs with
    | Raise e => (Raise e, w)
    | Return (n, lr) =>
        contrastive_divergence batch true n lr
          (mkWorld (switch_momentum epoch (self w)) (source w) (drawn w))
    end.
Proof.
  unfold step, schedule, gibbs_steps, step_lr, switch_momentum.
  rewrite (bind_run (c := get_self) _ (eq_refl (Return (self w), w))).
  destruct w as [s src d]; cbn [self source drawn].
  destruct (increase_to_cd_k s).
  - unfold int_truediv, math_ceil, lift, bind, raise, ret.
    destruct (num_epochs =? 0)%Z; [reflexivity|].
    destruct (ceil_float _) as [n|e]; [|reflexivity].
    destruct (learning_rate_decay s).
    + destruct (epoch =? 0)%Z; [reflexivity|].
      destruct (5 <? epoch)%Z; reflexivity.
    + destruct (5 <? epoch)%Z; reflexivity.
  - unfold bind, raise, ret.
    destruct (learning_rate_decay s).
    + destruct (epoch =? 0)%Z; [reflexivity|].
      destruct (5 <? epoch)%Z; reflexivity.
    + destruct (5 <? epoch)%Z; reflexivity.
Qed.

(** ** The activation engine *)

Lemma binary_sample_at (src : nat -> nat -> nat -> Q) (c : nat) (P : tensor) :
  Forall (Forall (fun x => x = 0 \/ x = 1)) (data (sample_at src c P)).
Proof.
  apply Forall_forall. intros r Hr. simpl in Hr.
  apply in_map_iff in Hr. destruct Hr as [i [<- _]].
  apply Forall_forall. intros x Hx.
  apply in_map_iff in Hx. destruct Hx as [j [<- _]].
  apply ge_float_binary.
Qed.

Lemma entry_hidden_prob (s : RBM) (X : tensor) (i j : nat) :
  (i < rows X)%nat -> (j < cols (W s))%nat ->
  entry (hidden_prob s X) i j =
    relu_q (sum_n (cols X) (fun l => entry X i l * entry (W s) l j)
            + vnth (h_bias s) j).
Proof.
  intros Hi Hj. unfold hidden_prob, relu, add_bias_t, matmul_t.
  cbn [rows cols tabulate].
  rewrite !entry_tabulate by assumption. reflexivity.
Qed.

(** C5.  For every weight matrix [W], hidden bias [c] and input [V] whose
    shapes fit, [to_hidden] returns an activation that equals
    [max(0, V.W + c)] entry by entry, together with a sample of the same
    shape whose every entry is exactly [0] or [1]. *)
Theorem to_hidden_relu_and_binary_sample (X : tensor) (w : world) :
  cols X = rows (W (self w)) ->
  length (h_bias (self w)) = cols (W (self w)) ->
  exists P S,
    fst (to_hidden X w) = Return (P, S) /\
    rows P = rows X /\ cols P = cols (W (self w)) /\ wf_tensor P /\
    (forall i j, (i < rows X)%nat -> (j < cols (W (self w)))%nat ->
       entry P i j ==
       Qmax 0 (sum_n (cols X)
                 (fun l => entry X i l * entry (W (self w)) l j)
               + vnth (h_bias (self w)) j)) /\
    rows S = rows X /\ cols S = cols (W (self w)) /\ wf_tensor S /\
    Forall (Forall (fun x => x = 0 \/ x = 1)) (data S).
Proof.
  intros HX Hb.
  exists (hidden_prob (self w) X),
    (sample_at (source w) (drawn w) (hidden_prob (self w) X)).
  rewrite (to_hidden_run X w HX Hb).
  split; [reflexivity|].
  split; [reflexivity|]. split; [reflexivity|].
  split; [apply wf_tabulate|].
  split.
  - intros i j Hi Hj. rewrite entry_hidden_prob by assumption.
    apply relu_q_max.
  - split; [reflexivity|]. split; [reflexivity|].
    split; [apply wf_tabulate|apply binary_sample_at].
Qed.

Lemma to_hidden_relu_and_binary_sample_witness :
  exists P S,
    fst (to_hidden ones_batch (small_world (1 # 2))) = Return (P, S) /\
    rows P = 1%nat /\ cols P = 1%nat /\ wf_tensor P /\
    (forall i j, (i < 1)%nat -> (j < 1)%nat ->
       entry P i j ==
       Qmax 0 (sum_n 2
                 (fun l => entry ones_batch i l
                           * entry (W (small_rbm (1 # 2))) l j)
               + vnth (h_bias (small_rbm (1 # 2))) j)) /\
    rows S = 1%nat /\ cols S = 1%nat /\ wf_tensor S /\
    Forall (Forall (fun x => x = 0 \/ x = 1)) (data S).
Proof.
  exact (to_hidden_relu_and_binary_sample ones_batch (small_world (1 # 2))
           eq_refl eq_refl).
Defined.

(** C4, amended.  Each entry of the sample is [1] when the probability [p]
    is at least the uniform draw [u] and [0] otherwise.  With [u] in
    [[0, 1)], an entry with [p = 1] is always sampled as [1]; an entry with
    [p = 0] is sampled as [0] for every draw [u > 0], and as [1] when the
    draw is exactly [0]. *)
Theorem sampling_threshold (prob : tensor) (w : world) (i j : nat) :
  (i < rows prob)%nat -> (j < cols prob)%nat ->
  0 <= source w (drawn w) i j -> source w (drawn w) i j < 1 ->
  exists S,
    sampling prob w = (Return S, advance 1 w) /\
    rows S = rows prob /\ cols S = cols prob /\
    entry S i j
      = (if Qle_bool (source w (drawn w) i j) (entry prob i j)
         then 1 else 0) /\
    (entry prob i j == 1 -> entry S i j = 1) /\
    (entry prob i j == 0 -> 0 < source w (drawn w) i j -> entry S i j = 0) /\
    (entry prob i j == 0 -> source w (drawn w) i j == 0 -> entry S i j = 1).
Proof.
  intros Hi Hj Hu0 Hu1.
  exists (sample_at (source w) (drawn w) prob).
  split; [apply sampling_run|].
  split; [reflexivity|]. split; [reflexivity|].
  assert (E : entry (sample_at (source w) (drawn w) prob) i j
              = ge_float (entry prob i j) (source w (drawn w) i j)).
  { unfold sample_at, ge_float_t.
    rewrite entry_tabulate by assumption.
    rewrite entry_tabulate by assumption. reflexivity. }
  rewrite E. split; [reflexivity|].
  split; [|split].
  - intros Hp. apply ge_float_true. rewrite Hp. apply Qlt_le_weak, Hu1.
  - intros Hp Hu. apply ge_float_false. rewrite Hp. exact Hu.
  - intros Hp Hu. apply ge_float_true. rewrite Hp, Hu. apply Qle_refl.
Qed.

Lemma sampling_threshold_witness :
  exists S,
    sampling (tensor_of_rows 1 [[1]]) (small_world (1 # 2))
      = (Return S, advance 1 (small_world (1 # 2))) /\
    entry S 0 0 = 1.
Proof.
  destruct (sampling_threshold (tensor_of_rows 1 [[1]])
              (small_world (1 # 2)) 0 0
              (Nat.lt_0_succ 0) (Nat.lt_0_succ 0))
    as (S & Hrun & _ & _ & _ & Hone & _).
  - discriminate.
  - reflexivity.
  - exists S. split; [exact Hrun|]. apply Hone. reflexivity.
Defined.

(** C4, as stated, fails: a probability of exactly [0] meets a draw of
    exactly [0], which lies in [[0, 1)], and the entry is sampled as [1]. *)
Lemma sampling_zero_draw_counterexample :
  entry (tensor_of_rows 1 [[0]]) 0 0 == 0 /\
  0 <= source (small_world 0) (drawn (small_world 0)) 0 0 /\
  source (small_world 0) (drawn (small_world 0)) 0 0 < 1 /\
  exists S,
    fst (sampling (tensor_of_rows 1 [[0]]) (small_world 0)) = Return S /\
    entry S 0 0 = 1 /\ ~ entry S 0 0 == 0.
Proof.
  split; [reflexivity|]. split; [discriminate|]. split; [reflexivity|].
  exists (tensor_of_rows 1 [[1]]).
  split; [reflexivity|]. split; [reflexivity|]. discriminate.
Qed.

(** ** [reconstruct] *)

(** C10.  [reconstruct(V, n_gibbs)] needs [n_gibbs >= 1].  With
    [n_gibbs = 0] (or less) the loop never binds its result variables and
    the call ends in an [UnboundLocalError].  With [n_gibbs >= 1] it
    returns the visible probabilities and the sample of the last pass of
    the loop, and the object is the same afterwards. *)
Theorem reconstruct_needs_a_step (X : tensor) (n_gibbs : Z) (w : world) :
  well_shaped (self w) ->
  cols X = rows (W (self w)) ->
  ((n_gibbs <= 0)%Z ->
   reconstruct X n_gibbs w = (Raise UnboundLocalError, w)) /\
  ((1 <= n_gibbs)%Z ->
   exists pv v,
     reconstruct X n_gibbs w
       = (Return (pv, v), advance (2 * Z.to_nat n_gibbs) w) /\
     reconstruct_chain (self w) (source w) (drawn w) (Z.to_nat n_gibbs)
       None X = (Some pv, v) /\
     rows pv = rows X /\ cols pv = cols X /\
     rows v = rows X /\ cols v = cols X /\
     self (snd (reconstruct X n_gibbs w)) = self w).
Proof.
  intros Hs HX. split.
  - intros Hn. unfold reconstruct.
    replace (Z.to_nat n_gibbs) with 0%nat by lia. reflexivity.
  - intros Hn.
    pose proof Hs as (_ & _ & Hhb & Hvb & _).
    destruct (Z.to_nat n_gibbs) as [|m] eqn:Em; [lia|].
    destruct (reconstruct_chain_bound (self w) (source w) m (drawn w) None X)
      as (pv & v & E & R1 & C1 & R2 & C2).
    exists pv, v.
    assert (Hrun : reconstruct X n_gibbs w
                   = (Return (pv, v), advance (2 * S m) w)).
    { unfold reconstruct. rewrite Em.
      rewrite (bind_run _ (reconstruct_loop_run (S m) None X w Hhb Hvb HX)).
      rewrite E. reflexivity. }
    rewrite Hrun.
    repeat split; try assumption; try congruence.
Qed.

Lemma reconstruct_needs_a_step_witness :
  reconstruct ones_batch 0 (small_world (1 # 2))
    = (Raise UnboundLocalError, small_world (1 # 2)) /\
  exists pv v,
    reconstruct ones_batch 2 (small_world (1 # 2))
      = (Return (pv, v), advance 4 (small_world (1 # 2))) /\
    rows pv = 1%nat /\ cols pv = 2%nat.
Proof.
  assert (Hs : well_shaped (self (small_world (1 # 2)))).
  { repeat split. }
  destruct (reconstruct_needs_a_step ones_batch 0 (small_world (1 # 2))
              Hs eq_refl) as [H0 _].
  destruct (reconstruct_needs_a_step ones_batch 2 (small_world (1 # 2))
              Hs eq_refl) as [_ H2].
  split.
  - apply H0. discriminate.
  - destruct H2 as (pv & v & Hrun & _ & R & C & _); [discriminate|].
    exists pv, v. repeat split; assumption.
Defined.

(** ** Evaluation calls *)

(** C3.  For every input batch and every Gibbs-step count [k' >= 1], a
    call of [contrastive_divergence] with [training=False], and so a call
    of [reconstruction_error], leaves the object as it found it: [W], both
    biases and the three accumulators [grad_update], [v_bias_update] and
    [h_bias_update] are unchanged.  On a batch of the right width the call
    returns normally. *)
Theorem evaluation_leaves_parameters (V : tensor) (n : Z) (lr : Q)
    (w : world) :
  (1 <= n)%Z ->
  let s1 := self (snd (contrastive_divergence V false n lr w)) in
  let s2 := self (snd (reconstruction_error V w)) in
  (s1 = self w /\ s2 = self w) /\
  (W s1 = W (self w) /\ v_bias s1 = v_bias (self w) /\
   h_bias s1 = h_bias (self w) /\ grad_update s1 = grad_update (self w) /\
   v_bias_update s1 = v_bias_update (self w) /\
   h_bias_update s1 = h_bias_update (self w)) /\
  (well_shaped (self w) -> cols V = rows (W (self w)) ->
   exists e g,
     fst (contrastive_divergence V false n lr w) = Return (Tuple [e; g])).
Proof.
  intros Hn s1 s2.
  assert (H1 : s1 = self w).
  { apply (keeps_contrastive_divergence (fun s => s)). discriminate. }
  assert (H2 : s2 = self w).
  { apply (keeps_contrastive_divergence (fun s => s)). discriminate. }
  split; [split; assumption|].
  split; [rewrite H1; repeat split|].
  intros Hs HV.
  rewrite (contrastive_divergence_run V false n lr w Hs HV Hn).
  eexists _, _. reflexivity.
Qed.

Lemma evaluation_leaves_parameters_witness :
  self (snd (contrastive_divergence ones_batch false 1 (1 # 1000)
               (small_world (1 # 2))))
    = small_rbm (1 # 2) /\
  self (snd (reconstruction_error ones_batch (small_world (1 # 2))))
    = small_rbm (1 # 2).
Proof.
  exact (proj1 (evaluation_leaves_parameters ones_batch 1 (1 # 1000)
                  (small_world (1 # 2)) ltac:(discriminate))).
Defined.

(** ** The negative phase *)

Lemma negative_phase_shapes (w : world) (V0 : tensor) (m : nat) :
  rows (negative_visible w V0 (S m)) = rows V0 /\
  cols (negative_visible w V0 (S m)) = rows (W (self w)) /\
  rows (negative_hidden w V0 (S m)) = rows V0 /\
  cols (negative_hidden w V0 (S m)) = cols (W (self w)).
Proof.
  unfold negative_visible, negative_hidden, negative_phase.
  destruct (gibbs_chain_bound (self w) (source w) m (S (drawn w))
              (sample_at (source w) (drawn w) (hidden_prob (self w) V0))
              None None) as (vp & hp & E & R1 & C1 & R2 & C2).
  rewrite E. simpl. repeat split; assumption.
Qed.

(** ** The reconstruction error *)

Lemma error_of_per_feature (V0 R : tensor) :
  error_of V0 R == per_feature_mean_error V0 R.
Proof.
  unfold error_of, per_feature_mean_error, mean_v, sum_dim0.
  rewrite length_vtab.
  change (cols (square_t (sub_t V0 R))) with (cols V0).
  change (rows (square_t (sub_t V0 R))) with (rows V0).
  apply Qmult_comp; [|reflexivity].
  apply sum_n_ext. intros j Hj.
  rewrite vnth_vtab by exact Hj.
  apply sum_n_ext. intros i Hi.
  unfold square_t, sub_t.
  rewrite entry_tabulate by assumption.
  rewrite entry_tabulate by assumption.
  reflexivity.
Qed.

Lemma per_feature_vs_per_sample (V0 R : tensor) :
  (0 < rows V0)%nat -> (0 < cols V0)%nat ->
  per_feature_mean_error V0 R * inject_Z (Z.of_nat (cols V0))
  == per_sample_mean_error V0 R * inject_Z (Z.of_nat (rows V0)).
Proof.
  intros Hr Hc. unfold per_feature_mean_error, per_sample_mean_error.
  rewrite (sum_n_swap (rows V0) (cols V0) (sq_diff V0 R)).
  assert (Hr' : ~ inject_Z (Z.of_nat (rows V0)) == 0).
  { intros H. unfold Qeq in H. simpl in H. lia. }
  assert (Hc' : ~ inject_Z (Z.of_nat (cols V0)) == 0).
  { intros H. unfold Qeq in H. simpl in H. lia. }
  field. split; assumption.
Qed.

(** C1, amended.  For every batch [V0] of shape [(N, visible_units)] and
    every Gibbs-step count [k' >= 1], the reconstruction error returned by
    [contrastive_divergence] is the squared differences between [V0] and
    the negative-phase visible reconstruction summed over the [N] rows of
    the batch for each feature, then averaged over the [visible_units]
    features.  It is the per-sample figure (summed over features, averaged
    over the batch) multiplied by [N / visible_units]. *)
Theorem reconstruction_error_per_feature (V0 : tensor) (training : bool)
    (n : Z) (lr : Q) (w : world) :
  well_shaped (self w) ->
  cols V0 = rows (W (self w)) ->
  (1 <= n)%Z ->
  exists e g w',
    contrastive_divergence V0 training n lr w = (Return (Tuple [e; g]), w') /\
    rows (negative_visible w V0 (Z.to_nat n)) = rows V0 /\
    cols (negative_visible w V0 (Z.to_nat n)) = cols V0 /\
    e == per_feature_mean_error V0 (negative_visible w V0 (Z.to_nat n)) /\
    ((0 < rows V0)%nat -> (0 < cols V0)%nat ->
     e * inject_Z (Z.of_nat (cols V0))
     == per_sample_mean_error V0 (negative_visible w V0 (Z.to_nat n))
        * inject_Z (Z.of_nat (rows V0))).
Proof.
  intros Hs HV Hn.
  rewrite (contrastive_divergence_run V0 training n lr w Hs HV Hn).
  eexists _, _, _. split; [reflexivity|].
  destruct (Z.to_nat n) as [|m] eqn:Em; [lia|].
  destruct (negative_phase_shapes w V0 m) as (R1 & C1 & _).
  split; [exact R1|]. split; [congruence|].
  split; [apply error_of_per_feature|].
  intros Hr Hc. rewrite error_of_per_feature.
  apply per_feature_vs_per_sample; assumption.
Qed.

Lemma reconstruction_error_per_feature_witness :
  exists e g w',
    contrastive_divergence ones_batch false 1 (1 # 1000)
      (small_world (1 # 2)) = (Return (Tuple [e; g]), w') /\
    e == per_feature_mean_error ones_batch
           (negative_visible (small_world (1 # 2)) ones_batch 1).
Proof.
  destruct (reconstruction_error_per_feature ones_batch false 1 (1 # 1000)
              (small_world (1 # 2)))
    as (e & g & w' & Hrun & _ & _ & He & _).
  - repeat split.
  - reflexivity.
  - discriminate.
  - exists e, g, w'. split; assumption.
Defined.

(** C1, as stated, fails: on one sample with two features, both [1], whose
    reconstruction is all [0], the call reports the error [1], while the
    sum over the features averaged over the one sample is [2]. *)
Lemma reconstruction_error_counterexample :
  exists e g w',
    contrastive_divergence ones_batch false 1 (1 # 1000)
      (small_world (1 # 2)) = (Return (Tuple [e; g]), w') /\
    e == 1 /\
    per_sample_mean_error ones_batch
      (negative_visible (small_world (1 # 2)) ones_batch 1) == 2 /\
    ~ e == per_sample_mean_error ones_batch
            (negative_visible (small_world (1 # 2)) ones_batch 1).
Proof.
  eexists _, _, _. split; [vm_compute; reflexivity|].
  split; [reflexivity|]. split; [reflexivity|]. discriminate.
Qed.

(** ** The update rule *)

Lemma entry_association (A B : tensor) (i j : nat) :
  (i < cols A)%nat -> (j < cols B)%nat ->
  entry (matmul_t (transpose A) B) i j
  == sum_n (rows A) (fun r => entry A r i * entry B r j).
Proof.
  intros Hi Hj. unfold matmul_t.
  change (rows (transpose A)) with (cols A).
  change (cols (transpose A)) with (rows A).
  rewrite entry_tabulate by assumption.
  apply sum_n_ext. intros r Hr.
  unfold transpose. rewrite entry_tabulate by assumption. reflexivity.
Qed.

Lemma vnth_sum_dim0_sub (A B : tensor) (j : nat) :
  (j < cols A)%nat ->
  vnth (sum_dim0 (sub_t A B)) j
  == sum_n (rows A) (fun r => entry A r j - entry B r j).
Proof.
  intros Hj. unfold sum_dim0.
  change (cols (sub_t A B)) with (cols A).
  change (rows (sub_t A B)) with (rows A).
  rewrite vnth_vtab by exact Hj.
  apply sum_n_ext. intros r Hr.
  unfold sub_t. rewrite entry_tabulate by assumption. reflexivity.
Qed.

Lemma trained_update_rule (w : world) (V0 : tensor) (m : nat) (lr : Q) :
  well_shaped (self w) ->
  cols V0 = rows (W (self w)) ->
  update_rule (inject_Z (batch_size (self w))) lr V0
    (hidden_prob (self w) V0)
    (negative_visible w V0 (S m)) (negative_hidden w V0 (S m))
    (self w) (trained w V0 (S m) lr).
Proof.
  intros (_ & _ & Hhb & Hvb & Hvu & Hhu & Hgr & Hgc) HV.
  destruct (negative_phase_shapes w V0 m) as (R1 & C1 & R2 & C2).
  set (s := self w) in *.
  set (nvp := negative_visible w V0 (S m)) in *.
  set (nhp := negative_hidden w V0 (S m)) in *.
  set (php := hidden_prob s V0).
  set (pos := matmul_t (transpose V0) php).
  set (neg := matmul_t (transpose nvp) nhp).
  assert (Hgu : grad_update (trained w V0 (S m) lr)
                = new_grad_update s pos neg lr) by reflexivity.
  assert (HW : W (trained w V0 (S m) lr)
               = add_t (W s) (new_grad_update s pos neg lr)) by reflexivity.
  assert (Hvu' : v_bias_update (trained w V0 (S m) lr)
                 = new_bias_update s (v_bias_update s) V0 nvp lr)
    by reflexivity.
  assert (Hvb' : v_bias (trained w V0 (S m) lr)
                 = vadd_t (v_bias s)
                     (new_bias_update s (v_bias_update s) V0 nvp lr))
    by reflexivity.
  split.
  - intros i j Hi Hj. rewrite HW, Hgu. split.
    + unfold new_grad_update, add_t.
      change (rows (scale_t (momentum s) (grad_update s)))
        with (rows (grad_update s)).
      change (cols (scale_t (momentum s) (grad_update s)))
        with (cols (grad_update s)).
      rewrite entry_tabulate by congruence.
      unfold scale_t at 1 2.
      rewrite entry_tabulate by congruence.
      change (rows (sub_t (div_t (sub_t pos neg) (inject_Z (batch_size s)))
                      (scale_t (weight_decay s) (W s))))
        with (cols V0).
      change (cols (sub_t (div_t (sub_t pos neg) (inject_Z (batch_size s)))
                      (scale_t (weight_decay s) (W s))))
        with (cols (W s)).
      rewrite entry_tabulate by congruence.
      unfold sub_t at 1.
      change (rows (div_t (sub_t pos neg) (inject_Z (batch_size s))))
        with (cols V0).
      change (cols (div_t (sub_t pos neg) (inject_Z (batch_size s))))
        with (cols (W s)).
      rewrite entry_tabulate by congruence.
      unfold div_t, scale_t.
      change (rows (sub_t pos neg)) with (cols V0).
      change (cols (sub_t pos neg)) with (cols (W s)).
      rewrite entry_tabulate by congruence.
      rewrite entry_tabulate by assumption.
      unfold sub_t.
      change (rows pos) with (cols V0). change (cols pos) with (cols (W s)).
      rewrite entry_tabulate by congruence.
      unfold pos, neg.
      rewrite (entry_association V0 php) by (try assumption; congruence).
      rewrite (entry_association nvp nhp) by congruence.
      rewrite R1. reflexivity.
    + unfold add_t. rewrite entry_tabulate by assumption. reflexivity.
  - intros j Hj. rewrite Hvb', Hvu'. split.
    + unfold new_bias_update, vadd_t.
      rewrite length_vscale.
      rewrite vnth_vtab by congruence.
      rewrite vnth_vscale by congruence.
      rewrite vnth_vdiv
        by (rewrite length_vscale; unfold sum_dim0; rewrite length_vtab;
            change (cols (sub_t V0 nvp)) with (cols V0); congruence).
      rewrite vnth_vscale
        by (unfold sum_dim0; rewrite length_vtab;
            change (cols (sub_t V0 nvp)) with (cols V0); congruence).
      rewrite vnth_sum_dim0_sub by congruence.
      unfold Qdiv. ring.
    + unfold vadd_t at 1. rewrite vnth_vtab by congruence. reflexivity.
Qed.

(** C2, amended.  A training call of the estimator on a batch [V0], with
    current momentum [m], learning rate [lr] and weight decay [l], sets
    [dW <- m.dW + lr.((positive association - negative association)/B
    - l.W)] and [W <- W + dW], and [db <- m.db + lr.(sum over the rows of
    (V0 - negative visible reconstruction))/B] and [b <- b + db], where
    the divisor [B] is the [batch_size] stored in the object ([16] after
    construction, the argument of the last [train] afterwards).  The rule
    is the mean over the rows of the batch exactly when the batch has
    [batch_size] rows. *)
Theorem training_update_divides_by_batch_size (V0 : tensor) (n : Z) (lr : Q)
    (w : world) :
  well_shaped (self w) ->
  cols V0 = rows (W (self w)) ->
  (1 <= n)%Z ->
  exists r w',
    contrastive_divergence V0 true n lr w = (Return r, w') /\
    update_rule (inject_Z (batch_size (self w))) lr V0
      (hidden_prob (self w) V0)
      (negative_visible w V0 (Z.to_nat n))
      (negative_hidden w V0 (Z.to_nat n))
      (self w) (self w') /\
    (batch_size (self w) = Z.of_nat (rows V0) ->
     update_rule (inject_Z (Z.of_nat (rows V0))) lr V0
       (hidden_prob (self w) V0)
       (negative_visible w V0 (Z.to_nat n))
       (negative_hidden w V0 (Z.to_nat n))
       (self w) (self w')).
Proof.
  intros Hs HV Hn.
  rewrite (contrastive_divergence_run V0 true n lr w Hs HV Hn).
  eexists _, _. split; [reflexivity|].
  destruct (Z.to_nat n) as [|m] eqn:Em; [lia|].
  cbn [self].
  pose proof (trained_update_rule w V0 m lr Hs HV) as H.
  split; [exact H|].
  intros <-. exact H.
Qed.

Lemma training_update_divides_by_batch_size_witness :
  exists r w',
    contrastive_divergence ones_batch true 1 1 (small_world (1 # 2))
      = (Return r, w') /\
    update_rule (inject_Z 16) 1 ones_batch
      (hidden_prob (small_rbm (1 # 2)) ones_batch)
      (negative_visible (small_world (1 # 2)) ones_batch 1)
      (negative_hidden (small_world (1 # 2)) ones_batch 1)
      (small_rbm (1 # 2)) (self w').
Proof.
  destruct (training_update_divides_by_batch_size ones_batch 1 1
              (small_world (1 # 2)))
    as (r & w' & Hrun & Hrule & _).
  - repeat split.
  - reflexivity.
  - discriminate.
  - exists r, w'. split; assumption.
Defined.

(** C2, as stated, fails: a freshly built object holds [batch_size = 16];
    a training call on a batch of one row divides by [16], not by the one
    row of the batch, so the visible-bias accumulator becomes [1/16] where
    the mean over the batch rows would make it [1]. *)
Lemma training_update_counterexample :
  exists r w',
    contrastive_divergence ones_batch true 1 1 (small_world (1 # 2))
      = (Return r, w') /\
    rows ones_batch = 1%nat /\
    vnth (v_bias_update (self w')) 0 == 1 # 16 /\
    ~ update_rule (inject_Z (Z.of_nat (rows ones_batch))) 1 ones_batch
        (hidden_prob (small_rbm (1 # 2)) ones_batch)
        (negative_visible (small_world (1 # 2)) ones_batch 1)
        (negative_hidden (small_world (1 # 2)) ones_batch 1)
        (small_rbm (1 # 2)) (self w').
Proof.
  eexists _, _. split; [vm_compute; reflexivity|].
  split; [reflexivity|]. split; [reflexivity|].
  intros [_ Hb].
  destruct (Hb 0%nat (Nat.lt_0_succ 1)) as [Hvu _].
  vm_compute in Hvu. discriminate.
Qed.

(** ** What [reconstruction_error] returns *)

(** C8, amended.  For every input batch of the right width,
    [reconstruction_error(batch)] returns a tuple of two values: the
    reconstruction error of one Gibbs step, and the sum of the absolute
    values of the weight accumulator [grad_update]. *)
Theorem reconstruction_error_returns_pair (batch : tensor) (w : world) :
  well_shaped (self w) ->
  cols batch = rows (W (self w)) ->
  fst (reconstruction_error batch w)
    = Return (Tuple [error_of batch (negative_visible w batch 1);
                     sum_all (abs_t (grad_update (self w)))]) /\
  ~ is_scalar (Tuple [error_of batch (negative_visible w batch 1);
                      sum_all (abs_t (grad_update (self w)))]).
Proof.
  intros Hs HV. unfold reconstruction_error.
  rewrite (contrastive_divergence_run batch false 1 (1 # 1000) w Hs HV
             ltac:(discriminate)).
  split; [reflexivity|]. intros H; exact H.
Qed.

Lemma reconstruction_error_returns_pair_witness :
  fst (reconstruction_error ones_batch (small_world (1 # 2)))
    = Return (Tuple [error_of ones_batch
                       (negative_visible (small_world (1 # 2)) ones_batch 1);
                     sum_all (abs_t (grad_update (small_rbm (1 # 2))))]).
Proof.
  exact (proj1 (reconstruction_error_returns_pair ones_batch
                  (small_world (1 # 2))
                  ltac:(repeat split) eq_refl)).
Defined.

(** C8, as stated, fails: the value returned is a tuple, not a scalar. *)
Lemma reconstruction_error_counterexample_not_scalar :
  exists v,
    fst (reconstruction_error ones_batch (small_world (1 # 2))) = Return v /\
    ~ is_scalar v.
Proof.
  eexists. split; [vm_compute; reflexivity|]. intros H; exact H.
Qed.

(** ** The momentum switch *)

Lemma step_returns (batch : tensor) (epoch num_epochs : Z) (w w' : world)
    (r : pyvalue) :
  step batch epoch num_epochs w = (Return r, w') ->
  momentum (self w') = momentum (switch_momentum epoch (self w)) /\
  final_momentum (self w') = final_momentum (self w).
Proof.
  rewrite step_unfold.
  destruct (schedule (self w) epoch num_epochs) as [[n lr]|e];
    [|discriminate].
  intros E.
  pose proof (keeps_contrastive_divergence momentum batch true n lr
                ltac:(intros _ s; repeat split)
                (mkWorld (switch_momentum epoch (self w)) (source w)
                   (drawn w))) as Hm.
  pose proof (keeps_contrastive_divergence final_momentum batch true n lr
                ltac:(intros _ s; repeat split)
                (mkWorld (switch_momentum epoch (self w)) (source w)
                   (drawn w))) as Hf.
  rewrite E in Hm, Hf. cbn [snd self] in Hm, Hf.
  split; [exact Hm|]. rewrite Hf.
  unfold switch_momentum. destruct (5 <? epoch)%Z; reflexivity.
Qed.

Lemma momentum_switch_momentum (epoch : Z) (s : RBM) :
  momentum (switch_momentum epoch s)
  = if (5 <? epoch)%Z then final_momentum s else momentum s.
Proof. unfold switch_momentum. destruct (5 <? epoch)%Z; reflexivity. Qed.

Lemma run_steps_momentum (calls : list (tensor * Z * Z)) :
  forall (w : world) (i : nat) (m : Q),
    nth_error (run_steps calls w) i = Some m ->
    m = if existsb (fun e => (5 <? e)%Z) (firstn (S i) (epochs_of calls))
        then final_momentum (self w) else momentum (self w).
Proof.
  induction calls as [|[[b e] ne] rest IH]; intros w i m H.
  - destruct i; discriminate.
  - cbn [run_steps] in H.
    destruct (step b e ne w) as [[r|x] w'] eqn:E.
    + destruct (step_returns b e ne w w' r E) as [Hm Hf].
      rewrite momentum_switch_momentum in Hm.
      change (epochs_of ((b, e, ne) :: rest)) with (e :: epochs_of rest).
      rewrite firstn_cons. cbn [existsb].
      destruct i as [|i].
      * cbn in H. injection H as <-. rewrite Hm.
        rewrite firstn_0. cbn [existsb]. rewrite orb_false_r. reflexivity.
      * cbn [nth_error] in H. apply IH in H. rewrite H, Hm, Hf.
        destruct (5 <? e)%Z; cbn [orb];
          destruct (existsb _ _); reflexivity.
    + destruct i; discriminate.
Qed.

Lemma init_momentum (sqrt : Q -> Q) (v h k0 : Z) (lr : Q) (lrd : bool)
    (wd mi mf : Q) (xi inc gpu : bool) (src : nat -> nat -> nat -> Q)
    (d : nat) (w0 : world) :
  __init__ sqrt v h k0 lr lrd wd mi mf xi inc gpu src d = Return w0 ->
  momentum (self w0) = mi /\ final_momentum (self w0) = mf.
Proof.
  unfold __init__.
  destruct xi; cbn [negb].
  - destruct (v + h =? 0)%Z; [discriminate|].
    destruct (check_size v); [|discriminate].
    destruct (check_size h); [|discriminate].
    intros E; injection E as <-. split; reflexivity.
  - destruct (check_size v); [|discriminate].
    destruct (check_size h); [|discriminate].
    intros E; injection E as <-. split; reflexivity.
Qed.

Lemma well_shaped_switch_momentum (epoch : Z) (s : RBM) :
  well_shaped s -> well_shaped (switch_momentum epoch s).
Proof.
  unfold switch_momentum. destruct (5 <? epoch)%Z; [|trivial].
  intros H. exact H.
Qed.

Lemma gibbs_chain_set_momentum (m : Q) (s : RBM)
    (src : nat -> nat -> nat -> Q) (n : nat) :
  forall (c : nat) (ha : tensor) (vp hp : option tensor),
    gibbs_chain (set_momentum m s) src c n ha vp hp
    = gibbs_chain s src c n ha vp hp.
Proof.
  induction n as [|n IH]; intros c ha vp hp.
  - reflexivity.
  - cbn [gibbs_chain]. apply IH.
Qed.

Lemma negative_phase_switch_momentum (epoch : Z) (w : world) (V0 : tensor)
    (n : nat) :
  negative_phase
    (mkWorld (switch_momentum epoch (self w)) (source w) (drawn w)) V0 n
  = negative_phase w V0 n.
Proof.
  unfold negative_phase, switch_momentum. cbn [self source drawn].
  destruct (5 <? epoch)%Z; [|reflexivity].
  apply gibbs_chain_set_momentum.
Qed.

Lemma trained_hidden_bias_blend (w : world) (V0 : tensor) (m : nat)
    (lr : Q) :
  well_shaped (self w) ->
  cols V0 = rows (W (self w)) ->
  forall j, (j < cols (W (self w)))%nat ->
    vnth (h_bias_update (trained w V0 (S m) lr)) j
    == momentum (self w) * vnth (h_bias_update (self w)) j
       + lr * (sum_n (rows V0)
                 (fun r => entry (hidden_prob (self w) V0) r j
                           - entry (negative_hidden w V0 (S m)) r j)
               / inject_Z (batch_size (self w))).
Proof.
  intros (_ & _ & Hhb & Hvb & Hvu & Hhu & Hgr & Hgc) HV j Hj.
  set (s := self w) in *.
  set (nhp := negative_hidden w V0 (S m)).
  set (php := hidden_prob s V0).
  assert (Hhu' : h_bias_update (trained w V0 (S m) lr)
                 = new_bias_update s (h_bias_update s) php nhp lr)
    by reflexivity.
  rewrite Hhu'. unfold new_bias_update, vadd_t.
  rewrite length_vscale.
  rewrite vnth_vtab by congruence.
  rewrite vnth_vscale by congruence.
  rewrite vnth_vdiv
    by (rewrite length_vscale; unfold sum_dim0; rewrite length_vtab;
        exact Hj).
  rewrite vnth_vscale
    by (unfold sum_dim0; rewrite length_vtab; exact Hj).
  rewrite vnth_sum_dim0_sub by exact Hj.
  change (rows php) with (rows V0).
  unfold Qdiv. ring.
Qed.

(** The accumulators after a training call are the old ones blended with
    the momentum the object holds when the call starts. *)
Lemma trained_momentum_blend (w : world) (V0 : tensor) (m : nat) (lr : Q) :
  well_shaped (self w) ->
  cols V0 = rows (W (self w)) ->
  momentum_blend (momentum (self w)) lr V0 (hidden_prob (self w) V0)
    (negative_visible w V0 (S m)) (negative_hidden w V0 (S m))
    (self w) (trained w V0 (S m) lr).
Proof.
  intros Hs HV.
  destruct (trained_update_rule w V0 m lr Hs HV) as [HW Hb].
  split; [|split].
  - intros i j Hi Hj. exact (proj1 (HW i j Hi Hj)).
  - intros j Hj. exact (proj1 (Hb j Hj)).
  - apply trained_hidden_bias_blend; assumption.
Qed.

(** A [step] that reaches its update blends the accumulators it finds
    with the momentum of its epoch. *)
Lemma step_momentum_blend (b : tensor) (e ne : Z) (w : world) (n : Z)
    (lr' : Q) :
  schedule (self w) e ne = Return (n, lr') ->
  well_shaped (self w) ->
  cols b = rows (W (self w)) ->
  (1 <= n)%Z ->
  exists r w',
    step b e ne w = (Return r, w') /\
    momentum_blend
      (if (5 <? e)%Z then final_momentum (self w) else momentum (self w))
      lr' b (hidden_prob (self w) b)
      (negative_visible w b (Z.to_nat n)) (negative_hidden w b (Z.to_nat n))
      (self w) (self w').
Proof.
  intros Hsch Hs Hb Hn.
  set (w1 := mkWorld (switch_momentum e (self w)) (source w) (drawn w)).
  assert (Hs1 : well_shaped (self w1))
    by (apply well_shaped_switch_momentum; exact Hs).
  assert (Hb1 : cols b = rows (W (self w1)))
    by (cbn [self w1]; unfold switch_momentum;
        destruct (5 <? e)%Z; exact Hb).
  rewrite step_unfold, Hsch.
  fold w1.
  rewrite (contrastive_divergence_run b true n lr' w1 Hs1 Hb1 Hn).
  eexists _, _. split; [reflexivity|].
  cbn [self].
  destruct (Z.to_nat n) as [|m] eqn:Em; [lia|].
  pose proof (trained_momentum_blend w1 b m lr' Hs1 Hb1) as H.
  assert (Env : negative_visible w1 b (S m) = negative_visible w b (S m)).
  { unfold negative_visible, w1.
    rewrite negative_phase_switch_momentum. reflexivity. }
  assert (Enh : negative_hidden w1 b (S m) = negative_hidden w b (S m)).
  { unfold negative_hidden, w1.
    rewrite negative_phase_switch_momentum. reflexivity. }
  rewrite Env, Enh in H.
  revert H. generalize (trained w1 b (S m) lr'). intros s' H.
  unfold w1 in H. cbn [self] in H. unfold switch_momentum in H.
  destruct (5 <? e)%Z; exact H.
Qed.

(** C6.  A [step] that performs its update runs it in an object whose
    momentum is [final_momentum] when [epoch > 5] and is the momentum it
    found otherwise, and that momentum is the one blended into the three
    accumulators [grad_update], [v_bias_update] and [h_bias_update].  So
    in a run of steps on a freshly built object the momentum of the blend
    is [initial_momentum] at every step with [epoch <= 5] until a step
    with [epoch > 5] has run, and [final_momentum] at that step and at
    every later one: the switch never reverts.  When the epochs do not
    decrease along the run, as in [train], the momentum is
    [initial_momentum] exactly at the steps with [epoch <= 5]. *)
Theorem momentum_switch_is_permanent (sqrt : Q -> Q) (v h k0 : Z) (lr : Q)
    (lrd : bool) (wd mi mf : Q) (xi inc gpu : bool)
    (src : nat -> nat -> nat -> Q) (d : nat) (w0 : world)
    (calls : list (tensor * Z * Z)) :
  __init__ sqrt v h k0 lr lrd wd mi mf xi inc gpu src d = Return w0 ->
  (forall b e ne w n lr',
     schedule (self w) e ne = Return (n, lr') ->
     step b e ne w
       = contrastive_divergence b true n lr'
           (mkWorld (switch_momentum e (self w)) (source w) (drawn w)) /\
     momentum (switch_momentum e (self w))
       = (if (5 <? e)%Z then final_momentum (self w)
          else momentum (self w))) /\
  (forall b e ne w n lr',
     schedule (self w) e ne = Return (n, lr') ->
     well_shaped (self w) ->
     cols b = rows (W (self w)) ->
     (1 <= n)%Z ->
     exists r w',
       step b e ne w = (Return r, w') /\
       momentum (self w')
         = (if (5 <? e)%Z then final_momentum (self w)
            else momentum (self w)) /\
       momentum_blend
         (if (5 <? e)%Z then final_momentum (self w) else momentum (self w))
         lr' b (hidden_prob (self w) b)
         (negative_visible w b (Z.to_nat n))
         (negative_hidden w b (Z.to_nat n))
         (self w) (self w')) /\
  (forall i m,
     nth_error (run_steps calls w0) i = Some m ->
     m = if existsb (fun e => (5 <? e)%Z) (firstn (S i) (epochs_of calls))
         then mf else mi) /\
  ((forall i j ei ej, (i <= j)%nat ->
      nth_error (epochs_of calls) i = Some ei ->
      nth_error (epochs_of calls) j = Some ej -> (ei <= ej)%Z) ->
   forall i m e,
     nth_error (run_steps calls w0) i = Some m ->
     nth_error (epochs_of calls) i = Some e ->
     m = if (e <=? 5)%Z then mi else mf).
Proof.
  intros Hinit.
  destruct (init_momentum _ _ _ _ _ _ _ _ _ _ _ _ _ _ _ Hinit) as [Hmi Hmf].
  assert (Hrun : forall i m,
             nth_error (run_steps calls w0) i = Some m ->
             m = if existsb (fun e => (5 <? e)%Z)
                      (firstn (S i) (epochs_of calls))
                 then mf else mi).
  { intros i m H. apply run_steps_momentum in H.
    rewrite Hmi, Hmf in H. exact H. }
  split; [|split; [|split]].
  - intros b e ne w n lr' Hsch. split.
    + rewrite step_unfold, Hsch. reflexivity.
    + apply momentum_switch_momentum.
  - intros b e ne w n lr' Hsch Hs Hb Hn.
    destruct (step_momentum_blend b e ne w n lr' Hsch Hs Hb Hn)
      as (r & w' & Hstep & Hblend).
    exists r, w'. split; [exact Hstep|]. split; [|exact Hblend].
    destruct (step_returns b e ne w w' r Hstep) as [Hm _].
    rewrite Hm. apply momentum_switch_momentum.
  - exact Hrun.
  - intros Hsorted i m e Hm He.
    rewrite (Hrun i m Hm).
    destruct (existsb (fun e0 => (5 <? e0)%Z)
                (firstn (S i) (epochs_of calls))) eqn:Ex.
    + apply existsb_exists in Ex. destruct Ex as [e' [Hin He']].
      apply In_nth_error in Hin. destruct Hin as [j Hj].
      rewrite nth_error_firstn in Hj.
      destruct (Nat.ltb_spec j (S i)) as [Hji|Hge]; [|discriminate].
      assert (Hle : (e' <= e)%Z)
        by (apply (Hsorted j i e' e); [lia|assumption|assumption]).
      apply Z.ltb_lt in He'.
      destruct (Z.leb_spec e 5); [lia|reflexivity].
    + assert (Hin : In e (firstn (S i) (epochs_of calls))).
      { apply (nth_error_In _ i). rewrite nth_error_firstn.
        destruct (Nat.ltb_spec i (S i)) as [_|Hge]; [exact He|lia]. }
      assert (He5 : (5 <? e)%Z = false).
      { destruct (5 <? e)%Z eqn:E5; [|reflexivity].
        assert (existsb (fun e0 => (5 <? e0)%Z)
                  (firstn (S i) (epochs_of calls)) = true)
          by (apply existsb_exists; exists e; split; assumption).
        congruence. }
      apply Z.ltb_ge in He5.
      destruct (Z.leb_spec e 5); [reflexivity|lia].
Qed.

Lemma after_epoch_5_step :
  after_epoch_5 = snd (step ones_batch 5 10 (small_world (1 # 2))) /\
  momentum (self after_epoch_5) = 1 # 2 /\
  vnth (v_bias_update (self after_epoch_5)) 0 == 1 # 16.
Proof.
  split; [vm_compute; reflexivity|]. split; reflexivity.
Qed.

(** The example of the specification: initial momentum [0.5], final
    momentum [0.9].  After a first step at epoch 5 the visible-bias
    accumulator is not zero; the step at epoch 6 blends it with [0.9]. *)
Lemma momentum_switch_is_permanent_witness :
  (forall i m,
     nth_error
       (run_steps
          [(ones_batch, 5, 10); (ones_batch, 6, 10); (ones_batch, 1, 10)]%Z
          (small_world (1 # 2))) i = Some m ->
     m = if existsb (fun e => (5 <? e)%Z)
              (firstn (S i) [5; 6; 1]%Z)
         then 9 # 10 else 1 # 2) /\
  exists r w',
    step ones_batch 6 10 after_epoch_5 = (Return r, w') /\
    momentum (self w') = 9 # 10 /\
    momentum_blend (9 # 10) 1 ones_batch
      (hidden_prob (self after_epoch_5) ones_batch)
      (negative_visible after_epoch_5 ones_batch 1)
      (negative_hidden after_epoch_5 ones_batch 1)
      (self after_epoch_5) (self w').
Proof.
  pose proof (momentum_switch_is_permanent (fun x => x) 2 1 1 1 false 0
                (1 # 2) (9 # 10) false false false (fun _ _ _ => 1 # 2) 0
                (small_world (1 # 2))
                [(ones_batch, 5, 10); (ones_batch, 6, 10);
                 (ones_batch, 1, 10)]%Z
                eq_refl) as (_ & Hblend & Hrun & _).
  split; [exact Hrun|].
  apply (Hblend ones_batch 6%Z 10%Z after_epoch_5 1%Z 1).
  - reflexivity.
  - repeat split.
  - reflexivity.
  - discriminate.
Defined.

(** ** The Gibbs-step schedule *)

(** A [step] runs the negative-phase loop as many times as its schedule
    says: the generator is drawn from once for the positive phase and
    twice per Gibbs step. *)
Lemma step_runs_scheduled_steps (batch : tensor) (epoch num_epochs : Z)
    (w : world) (n : Z) (lr : Q) :
  well_shaped (self w) ->
  cols batch = rows (W (self w)) ->
  schedule (self w) epoch num_epochs = Return (n, lr) ->
  (1 <= n)%Z ->
  exists r w',
    step batch epoch num_epochs w = (Return r, w') /\
    drawn w' = (1 + 2 * Z.to_nat n + drawn w)%nat.
Proof.
  intros Hs Hb Hsch Hn.
  rewrite step_unfold, Hsch.
  rewrite (contrastive_divergence_run batch true n lr
             (mkWorld (switch_momentum epoch (self w)) (source w) (drawn w))).
  - eexists _, _. split; reflexivity.
  - apply well_shaped_switch_momentum. exact Hs.
  - cbn [self]. unfold switch_momentum.
    destruct (5 <? epoch)%Z; exact Hb.
  - exact Hn.
Qed.

Lemma gibbs_steps_constant (s : RBM) (epoch num_epochs : Z) :
  increase_to_cd_k s = false ->
  gibbs_steps s epoch num_epochs = Return (k s).
Proof. intros H. unfold gibbs_steps. rewrite H. reflexivity. Qed.

(** C7.  With the ramp enabled, [k = 25] and the default [num_epochs = 50],
    the step at epoch 14 runs 8 Gibbs steps, one more than
    [ceil((14 / 50) . 25) = 7]: the product is formed in double precision
    and lands just above 7.  The example of the specification ([k = 4],
    [num_epochs = 10], [epoch = 3]) gives 2, and the double-precision
    value is the exact ceiling on every schedule with [k <= 24] and
    [num_epochs <= 50]. *)
Theorem gibbs_ramp_rounding :
  gibbs_steps ramp_rbm 14 50 = Return 8%Z /\
  exact_ceil_div (14 * k ramp_rbm) 50 = 7%Z /\
  (exists r w',
     step one_batch 14 50 ramp_world = (Return r, w') /\
     drawn w' = (1 + 2 * 8 + drawn ramp_world)%nat) /\
  ceil_float
    (float_mul_int (SFdiv 53 1024 (float_of_int 3) (float_of_int 10)) 4)
    = Return 2%Z /\
  ramp_is_exact 24 50 = true /\
  ramp_is_exact 25 50 = false.
Proof.
  split; [vm_compute; reflexivity|].
  split; [reflexivity|].
  split.
  - destruct (step_runs_scheduled_steps one_batch 14 50 ramp_world 8
                (1 # 100000)) as (r & w' & Hrun & Hd).
    + repeat split.
    + reflexivity.
    + vm_compute. reflexivity.
    + discriminate.
    + exists r, w'. split; assumption.
  - split; [vm_compute; reflexivity|].
    split; vm_compute; reflexivity.
Qed.

(** ** Hyperparameters *)

Lemma check_size_nonneg (n : Z) :
  (0 <= n)%Z -> check_size n = Return (Z.to_nat n).
Proof.
  intros H. unfold check_size.
  destruct (Z.ltb_spec n 0); [lia|reflexivity].
Qed.

Lemma check_size_negative (n : Z) :
  (n < 0)%Z -> check_size n = Raise RuntimeError.
Proof.
  intros H. unfold check_size.
  destruct (Z.ltb_spec n 0); [reflexivity|lia].
Qed.

(** What the tensor library does refuse: a negative number of units at
    construction, and a non-positive batch size when [train] has to wrap a
    raw dataset into a loader. *)
Lemma refused_arguments (sqrt : Q -> Q) (v h k0 : Z) (lr : Q) (lrd : bool)
    (wd mi mf : Q) (inc gpu : bool) (src : nat -> nat -> nat -> Q) (d : nat) :
  ((v < 0)%Z \/ (h < 0)%Z ->
   __init__ sqrt v h k0 lr lrd wd mi mf false inc gpu src d
     = Raise RuntimeError) /\
  (forall samples ne bs w,
     (bs <= 0)%Z ->
     fst (train (Dataset samples) ne bs w) = Raise ValueError).
Proof.
  split.
  - intros Hneg. unfold __init__. cbn [negb].
    destruct (Z.ltb_spec v 0) as [Hv|Hv].
    + rewrite (check_size_negative v Hv). reflexivity.
    + rewrite (check_size_nonneg v Hv).
      destruct Hneg as [Hneg|Hneg]; [lia|].
      rewrite (check_size_negative h Hneg). reflexivity.
  - intros samples ne bs w Hbs. unfold train, new_DataLoader, bind.
    cbn [modify_self].
    destruct (Z.leb_spec bs 0); [reflexivity|lia].
Qed.

(** C9, amended.  Neither the constructor nor [train] checks a
    hyperparameter.  Construction succeeds for every [k], learning rate,
    weight decay and momentum, and for every number of units that is not
    negative (with Xavier initialisation, not both zero); [train] on a
    ready loader with [num_epochs <= 0] returns normally for every
    [batch_size], having stored it in the object and run no step. *)
Theorem hyperparameters_not_validated (sqrt : Q -> Q) (v h k0 : Z) (lr : Q)
    (lrd : bool) (wd mi mf : Q) (xi inc gpu : bool)
    (src : nat -> nat -> nat -> Q) (d : nat)
    (batches : list tensor) (ne bs : Z) :
  (0 <= v)%Z -> (0 <= h)%Z ->
  (xi = true -> (v + h)%Z <> 0%Z) ->
  (ne <= 0)%Z ->
  exists w0,
    __init__ sqrt v h k0 lr lrd wd mi mf xi inc gpu src d = Return w0 /\
    well_shaped (self w0) /\
    k (self w0) = k0 /\ learning_rate (self w0) = lr /\
    weight_decay (self w0) = wd /\
    momentum (self w0) = mi /\ final_momentum (self w0) = mf /\
    batch_size (self w0) = 16%Z /\
    train (DataLoader batches) ne bs w0
      = (Return tt,
         mkWorld (set_batch_size bs (self w0)) (source w0) (drawn w0)).
Proof.
  intros Hv Hh Hx Hne.
  assert (Htrain : forall w0,
            train (DataLoader batches) ne bs w0
            = (Return tt,
               mkWorld (set_batch_size bs (self w0)) (source w0)
                 (drawn w0))).
  { intros w0. unfold train. replace (Z.to_nat ne) with 0%nat by lia.
    reflexivity. }
  unfold __init__.
  rewrite (check_size_nonneg v Hv), (check_size_nonneg h Hh).
  destruct xi; cbn [negb].
  - destruct (Z.eqb_spec (v + h) 0) as [E|_]; [exfalso; exact (Hx eq_refl E)|].
    eexists. split; [reflexivity|].
    split.
    { unfold well_shaped; cbn [self W rows cols tabulate visible_units
        hidden_units h_bias v_bias v_bias_update h_bias_update grad_update
        zeros]; unfold vzeros; rewrite !length_vtab.
      repeat split; symmetry; apply Z2Nat.id; assumption. }
    repeat split. apply Htrain.
  - eexists. split; [reflexivity|].
    split.
    { unfold well_shaped; cbn [self W rows cols tabulate visible_units
        hidden_units h_bias v_bias v_bias_update h_bias_update grad_update
        zeros]; unfold vzeros; rewrite !length_vtab.
      repeat split; symmetry; apply Z2Nat.id; assumption. }
    repeat split. apply Htrain.
Qed.

Lemma hyperparameters_not_validated_witness :
  exists w0,
    __init__ (fun x => x) 0 0 (-4) (-1) false (-1) 5 (-2) false false false
      (fun _ _ _ => 1 # 2) 0 = Return w0 /\
    k (self w0) = (-4)%Z /\ weight_decay (self w0) = -1 /\
    momentum (self w0) = 5 /\
    train (DataLoader [ones_batch]) 0 (-3) w0
      = (Return tt,
         mkWorld (set_batch_size (-3) (self w0)) (source w0) (drawn w0)).
Proof.
  destruct (hyperparameters_not_validated (fun x => x) 0 0 (-4) (-1) false
              (-1) 5 (-2) false false false (fun _ _ _ => 1 # 2) 0
              [ones_batch] 0 (-3))
    as (w0 & Hinit & _ & Hk & _ & Hwd & Hm & _ & _ & Htrain).
  - discriminate.
  - discriminate.
  - discriminate.
  - discriminate.
  - exists w0. repeat split; assumption.
Defined.

(** C9, as stated, fails.  A negative weight decay and momenta outside
    [[0, 1)] are accepted by the constructor, and [train] then runs a
    whole epoch with a negative batch size and returns normally; so are
    zero units, [k = 0] and [num_epochs = 0]. *)
Lemma invalid_hyperparameters_accepted :
  ~ valid_construction 2 1 1 (-1) 5 (-2) /\
  ~ valid_training 1 (-3) /\
  (exists w0,
     __init__ (fun x => x) 2 1 1 1 false (-1) 5 (-2) false false false
       (fun _ _ _ => 1 # 2) 0 = Return w0 /\
     fst (train (DataLoader [ones_batch]) 1 (-3) w0) = Return tt) /\
  ~ valid_construction 0 0 0 0 0 0 /\
  ~ valid_training 0 16 /\
  (exists w0,
     __init__ (fun x => x) 0 0 0 1 false 0 0 0 false false false
       (fun _ _ _ => 1 # 2) 0 = Return w0 /\
     fst (train (DataLoader [ones_batch]) 0 16 w0) = Return tt).
Proof.
  split.
  { intros (_ & _ & _ & Hwd & _). apply Hwd. reflexivity. }
  split.
  { intros (_ & Hbs). discriminate Hbs. }
  split.
  { eexists. split; [reflexivity|]. vm_compute. reflexivity. }
  split.
  { intros (Hv & _). discriminate Hv. }
  split.
  { intros (Hne & _). discriminate Hne. }
  eexists. split; [reflexivity|]. vm_compute. reflexivity.
Qed.

(** * Further properties of the code *)

(** ** The visible side of the activation engine *)

Lemma relu_q_nonneg (x : Q) : 0 <= relu_q x.
Proof.
  unfold relu_q. destruct (Qle_bool 0 x) eqn:E.
  - apply Qle_bool_iff. exact E.
  - apply Qle_refl.
Qed.

Lemma entry_visible_prob (s : RBM) (H : tensor) (i j : nat) :
  cols H = cols (W s) ->
  (i < rows H)%nat -> (j < rows (W s))%nat ->
  entry (visible_prob s H) i j ==
    relu_q (sum_n (cols H) (fun l => entry H i l * entry (W s) j l)
            + vnth (v_bias s) j).
Proof.
  intros Hc Hi Hj. unfold visible_prob, relu, add_bias_t, matmul_t.
  cbn [rows cols tabulate transpose].
  rewrite !entry_tabulate by assumption.
  assert (E : sum_n (cols H)
                (fun l => entry H i l
                          * entry (tabulate (cols (W s)) (rows (W s))
                                     (fun i0 j0 => entry (W s) j0 i0)) l j)
              == sum_n (cols H) (fun l => entry H i l * entry (W s) j l)).
  { apply sum_n_ext. intros l Hl.
    rewrite entry_tabulate by (try assumption; congruence). reflexivity. }
  unfold relu_q.
  destruct (Qle_bool 0 (sum_n (cols H) _ + vnth (v_bias s) j)) eqn:E1;
    destruct (Qle_bool 0
                (sum_n (cols H) (fun l => entry H i l * entry (W s) j l)
                 + vnth (v_bias s) j)) eqn:E2.
  - rewrite E. reflexivity.
  - rewrite E in E1. congruence.
  - rewrite E in E1. congruence.
  - reflexivity.
Qed.

(** X1.  [to_visible] mirrors [to_hidden] through the transposed weights:
    the activation is [max(0, H.W^T + b)], never negative, and the sample
    is binary. *)
Theorem to_visible_relu_and_binary_sample (H : tensor) (w : world) :
  cols H = cols (W (self w)) ->
  length (v_bias (self w)) = rows (W (self w)) ->
  exists P S,
    to_visible H w = (Return (P, S), advance 1 w) /\
    rows P = rows H /\ cols P = rows (W (self w)) /\
    (forall i j, (i < rows H)%nat -> (j < rows (W (self w)))%nat ->
       entry P i j ==
       Qmax 0 (sum_n (cols H)
                 (fun l => entry H i l * entry (W (self w)) j l)
               + vnth (v_bias (self w)) j) /\
       0 <= entry P i j) /\
    rows S = rows H /\ cols S = rows (W (self w)) /\
    Forall (Forall (fun x => x = 0 \/ x = 1)) (data S).
Proof.
  intros HH Hb.
  exists (visible_prob (self w) H),
    (sample_at (source w) (drawn w) (visible_prob (self w) H)).
  split; [apply to_visible_run; assumption|].
  split; [reflexivity|]. split; [reflexivity|].
  split.
  - intros i j Hi Hj.
    rewrite (entry_visible_prob (self w) H i j HH Hi Hj).
    split; [apply relu_q_max|apply relu_q_nonneg].
  - split; [reflexivity|]. split; [reflexivity|]. apply binary_sample_at.
Qed.

Lemma to_visible_relu_and_binary_sample_witness :
  exists P S,
    to_visible (tensor_of_rows 1 [[1]]) (small_world (1 # 2))
      = (Return (P, S), advance 1 (small_world (1 # 2))) /\
    rows P = 1%nat /\ cols P = 2%nat.
Proof.
  destruct (to_visible_relu_and_binary_sample (tensor_of_rows 1 [[1]])
              (small_world (1 # 2)) eq_refl eq_refl)
    as (P & S & Hrun & R & C & _).
  exists P, S. repeat split; assumption.
Defined.

(** X2.  The inference entry points never touch the object: after
    [sampling], [to_hidden], [to_visible], [forward] or [reconstruct],
    returned or raised, [self] is what it was. *)
Theorem inference_leaves_object (X : tensor) (n : Z) (w : world) :
  self (snd (sampling X w)) = self w /\
  self (snd (to_hidden X w)) = self w /\
  self (snd (to_visible X w)) = self w /\
  self (snd (forward X w)) = self w /\
  self (snd (reconstruct X n w)) = self w.
Proof.
  split; [apply (keeps_sampling (fun s => s))|].
  split; [apply (keeps_to_hidden (fun s => s))|].
  split; [apply (keeps_to_visible (fun s => s))|].
  split; [apply (keeps_to_hidden (fun s => s))|].
  apply (keeps_reconstruct (fun s => s)).
Qed.

(** X3.  The comparison against a draw in [[0, 1)] saturates: a hidden
    unit whose pre-activation is at least [1] is sampled as [1] whatever
    the draw, and one whose pre-activation is not positive is sampled as
    [0] for every draw above [0]. *)
Theorem to_hidden_saturates (X : tensor) (w : world) (i j : nat) :
  cols X = rows (W (self w)) ->
  length (h_bias (self w)) = cols (W (self w)) ->
  (i < rows X)%nat -> (j < cols (W (self w)))%nat ->
  0 <= source w (drawn w) i j -> source w (drawn w) i j < 1 ->
  exists P S,
    fst (to_hidden X w) = Return (P, S) /\
    (1 <= sum_n (cols X) (fun l => entry X i l * entry (W (self w)) l j)
          + vnth (h_bias (self w)) j ->
     entry S i j = 1) /\
    (sum_n (cols X) (fun l => entry X i l * entry (W (self w)) l j)
     + vnth (h_bias (self w)) j <= 0 ->
     0 < source w (drawn w) i j ->
     entry S i j = 0).
Proof.
  intros HX Hb Hi Hj Hu0 Hu1.
  exists (hidden_prob (self w) X),
    (sample_at (source w) (drawn w) (hidden_prob (self w) X)).
  rewrite (to_hidden_run X w HX Hb). split; [reflexivity|].
  assert (E : entry (sample_at (source w) (drawn w)
                       (hidden_prob (self w) X)) i j
              = ge_float (entry (hidden_prob (self w) X) i j)
                  (source w (drawn w) i j)).
  { unfold sample_at, ge_float_t.
    change (rows (hidden_prob (self w) X)) with (rows X).
    change (cols (hidden_prob (self w) X)) with (cols (W (self w))).
    rewrite entry_tabulate by assumption.
    rewrite entry_tabulate by assumption. reflexivity. }
  rewrite E, (entry_hidden_prob (self w) X i j Hi Hj).
  set (a := sum_n (cols X) (fun l => entry X i l * entry (W (self w)) l j)
            + vnth (h_bias (self w)) j).
  split.
  - intros Ha. apply ge_float_true.
    rewrite relu_q_max. apply Qle_trans with 1; [apply Qlt_le_weak, Hu1|].
    apply Qle_trans with a; [exact Ha|apply Q.le_max_r].
  - intros Ha Hu. apply ge_float_false.
    rewrite relu_q_max. rewrite (Q.max_l 0 a Ha). exact Hu.
Qed.

Lemma to_hidden_saturates_witness :
  exists P S,
    fst (to_hidden (tensor_of_rows 2 [[10; 10]]) (small_world (1 # 2)))
      = Return (P, S) /\
    entry S 0 0 = 1.
Proof.
  destruct (to_hidden_saturates (tensor_of_rows 2 [[10; 10]])
              (small_world (1 # 2)) 0 0 eq_refl eq_refl
              (Nat.lt_0_succ 0) (Nat.lt_0_succ 0))
    as (P & S & Hrun & Hone & _).
  - discriminate.
  - reflexivity.
  - exists P, S. split; [exact Hrun|]. apply Hone. discriminate.
Defined.

(** ** Failing calls of [contrastive_divergence] *)

(** X4.  A batch whose width is not the number of visible units is
    refused by the first matrix product: the call raises before anything
    is drawn or assigned, with [training] on or off. *)
Theorem contrastive_divergence_wrong_width (V0 : tensor) (training : bool)
    (n : Z) (lr : Q) (w : world) :
  cols V0 <> rows (W (self w)) ->
  contrastive_divergence V0 training n lr w = (Raise RuntimeError, w).
Proof.
  intros HV. unfold contrastive_divergence, to_hidden.
  apply bind_raise.
  rewrite (bind_run (c := get_self) _ (eq_refl (Return (self w), w))).
  apply bind_raise. unfold matmul.
  destruct (Nat.eqb_spec (cols V0) (rows (W (self w)))) as [E|_];
    [contradiction|reflexivity].
Qed.

Lemma contrastive_divergence_wrong_width_witness :
  contrastive_divergence one_batch true 1 1 (small_world (1 # 2))
    = (Raise RuntimeError, small_world (1 # 2)).
Proof.
  apply contrastive_divergence_wrong_width. discriminate.
Defined.

(** X5.  With a Gibbs-step count of [0] or less the negative-phase loop
    binds nothing and the call raises [UnboundLocalError]; one random
    tensor has been drawn for the positive phase, and the object is
    untouched even when [training] is on. *)
Theorem contrastive_divergence_no_steps (V0 : tensor) (training : bool)
    (n : Z) (lr : Q) (w : world) :
  well_shaped (self w) ->
  cols V0 = rows (W (self w)) ->
  (n <= 0)%Z ->
  contrastive_divergence V0 training n lr w
    = (Raise UnboundLocalError, advance 1 w).
Proof.
  intros Hs HV Hn.
  pose proof Hs as (_ & _ & Hhb & Hvb & _).
  unfold contrastive_divergence.
  rewrite (bind_run _ (to_hidden_run V0 w HV Hhb)). cbv beta iota zeta.
  rewrite (bind_run _ (matmul_run (transpose V0)
                         (hidden_prob (self w) V0) _ eq_refl)).
  replace (Z.to_nat n) with 0%nat by lia.
  reflexivity.
Qed.

Lemma contrastive_divergence_no_steps_witness :
  contrastive_divergence ones_batch true 0 1 (small_world (1 # 2))
    = (Raise UnboundLocalError, advance 1 (small_world (1 # 2))).
Proof.
  apply contrastive_divergence_no_steps.
  - repeat split.
  - reflexivity.
  - discriminate.
Defined.

(** ** What a call reports *)




(** X6.  The error a training call reports is the error of the parameters
    it started from: on the same batch, with the generator in the same
    state, it is the error an evaluation call reports.  The second value is
    the size of the weight accumulator after the update in a training call
    and of the untouched accumulator in an evaluation call. *)
Theorem training_reports_error_before_update (V0 : tensor) (n : Z)
    (lr lr' : Q) (w : world) :
  well_shaped (self w) ->
  cols V0 = rows (W (self w)) ->
  (1 <= n)%Z ->
  exists e g g' w1 w2,
    contrastive_divergence V0 true n lr w = (Return (Tuple [e; g]), w1) /\
    contrastive_divergence V0 false n lr' w = (Return (Tuple [e; g']), w2) /\
    g = sum_all (abs_t (grad_update (self w1))) /\
    g' = sum_all (abs_t (grad_update (self w))) /\
    drawn w1 = drawn w2 /\
    drawn w1 = (1 + 2 * Z.to_nat n + drawn w)%nat.
Proof.
  intros Hs HV Hn.
  rewrite (contrastive_divergence_run V0 true n lr w Hs HV Hn).
  rewrite (contrastive_divergence_run V0 false n lr' w Hs HV Hn).
  eexists _, _, _, _, _.
  repeat split.
Qed.

Lemma training_reports_error_before_update_witness :
  exists e g g' w1 w2,
    contrastive_divergence ones_batch true 1 1 (small_world (1 # 2))
      = (Return (Tuple [e; g]), w1) /\
    contrastive_divergence ones_batch false 1 (1 # 1000)
      (small_world (1 # 2)) = (Return (Tuple [e; g']), w2).
Proof.
  destruct (training_reports_error_before_update ones_batch 1 1 (1 # 1000)
              (small_world (1 # 2)))
    as (e & g & g' & w1 & w2 & H1 & H2 & _).
  - repeat split.
  - reflexivity.
  - discriminate.
  - exists e, g, g', w1, w2. split; assumption.
Defined.



(** ** What training keeps *)

Lemma trained_well_shaped (w : world) (V0 : tensor) (n : nat) (lr : Q) :
  well_shaped (self w) -> well_shaped (trained w V0 n lr).
Proof.
  intros (H1 & H2 & H3 & H4 & H5 & H6 & H7 & H8).
  unfold well_shaped, trained, updated.
  cbn [visible_units hidden_units W h_bias v_bias v_bias_update
       h_bias_update grad_update set_h_bias set_v_bias set_W
       set_h_bias_update set_v_bias_update set_grad_update].
  unfold new_bias_update, new_grad_update, vadd_t, add_t.
  rewrite !length_vtab, !length_vscale.
  cbn [rows cols tabulate scale_t].
  repeat split; assumption.
Qed.

(** X8.  A call of [contrastive_divergence], training or not, returned or
    raised, never changes a hyperparameter, the momentum or the batch
    size, and it keeps the shapes of the weights, biases and accumulators
    as the constructor fixed them. *)
Theorem contrastive_divergence_keeps_settings (V0 : tensor)
    (training : bool) (n : Z) (lr : Q) (w : world) :
  let s' := self (snd (contrastive_divergence V0 training n lr w)) in
  hyperparameters s' = hyperparameters (self w) /\
  momentum s' = momentum (self w) /\
  batch_size s' = batch_size (self w) /\
  (well_shaped (self w) -> well_shaped s').
Proof.
  intros s'.
  split; [apply (keeps_contrastive_divergence hyperparameters);
          intros _ s; repeat split|].
  split; [apply (keeps_contrastive_divergence momentum);
          intros _ s; repeat split|].
  split; [apply (keeps_contrastive_divergence batch_size);
          intros _ s; repeat split|].
  intros Hs. subst s'.
  destruct (Nat.eq_dec (cols V0) (rows (W (self w)))) as [HV|HV].
  - destruct (Z_le_gt_dec n 0) as [Hn|Hn].
    + rewrite (contrastive_divergence_no_steps V0 training n lr w Hs HV Hn).
      exact Hs.
    + rewrite (contrastive_divergence_run V0 training n lr w Hs HV
                 ltac:(lia)).
      cbn [snd self]. destruct training; [|exact Hs].
      apply trained_well_shaped. exact Hs.
  - rewrite (contrastive_divergence_wrong_width V0 training n lr w HV).
    exact Hs.
Qed.

Lemma contrastive_divergence_keeps_settings_witness :
  well_shaped
    (self (snd (contrastive_divergence ones_batch true 1 1
                  (small_world (1 # 2))))).
Proof.
  apply (contrastive_divergence_keeps_settings ones_batch true 1 1
           (small_world (1 # 2))).
  repeat split.
Defined.

(** X9.  The hidden bias follows the same rule as the visible one: a
    training call sets [dc <- m.dc + lr.(sum over the batch rows of
    (positive hidden activation - negative hidden activation))/B] and
    [c <- c + dc], with [B] the stored batch size. *)
Theorem hidden_bias_update_rule (V0 : tensor) (n : Z) (lr : Q) (w : world) :
  well_shaped (self w) ->
  cols V0 = rows (W (self w)) ->
  (1 <= n)%Z ->
  batch_size (self w) <> 0%Z ->
  exists r w',
    contrastive_divergence V0 true n lr w = (Return r, w') /\
    forall j, (j < cols (W (self w)))%nat ->
      vnth (h_bias_update (self w')) j
      == momentum (self w) * vnth (h_bias_update (self w)) j
         + lr * (sum_n (rows V0)
                   (fun r => entry (hidden_prob (self w) V0) r j
                             - entry (negative_hidden w V0 (Z.to_nat n)) r j)
                 / inject_Z (batch_size (self w))) /\
      vnth (h_bias (self w')) j
      == vnth (h_bias (self w)) j + vnth (h_bias_update (self w')) j.
Proof.
  intros Hs HV Hn _.
  rewrite (contrastive_divergence_run V0 true n lr w Hs HV Hn).
  eexists _, _. split; [reflexivity|].
  cbn [self].
  destruct Hs as (_ & _ & Hhb & Hvb & Hvu & Hhu & Hgr & Hgc).
  destruct (Z.to_nat n) as [|m] eqn:Em; [lia|].
  destruct (negative_phase_shapes w V0 m) as (R1 & C1 & R2 & C2).
  set (s := self w) in *.
  set (nhp := negative_hidden w V0 (S m)) in *.
  set (php := hidden_prob s V0).
  assert (Hhu' : h_bias_update (trained w V0 (S m) lr)
                 = new_bias_update s (h_bias_update s) php nhp lr)
    by reflexivity.
  assert (Hhb' : h_bias (trained w V0 (S m) lr)
                 = vadd_t (h_bias s)
                     (new_bias_update s (h_bias_update s) php nhp lr))
    by reflexivity.
  intros j Hj. rewrite Hhb', Hhu'. split.
  - unfold new_bias_update, vadd_t.
    rewrite length_vscale.
    rewrite vnth_vtab by congruence.
    rewrite vnth_vscale by congruence.
    rewrite vnth_vdiv
      by (rewrite length_vscale; unfold sum_dim0; rewrite length_vtab;
          exact Hj).
    rewrite vnth_vscale
      by (unfold sum_dim0; rewrite length_vtab; exact Hj).
    rewrite vnth_sum_dim0_sub by exact Hj.
    change (rows php) with (rows V0).
    unfold Qdiv. ring.
  - unfold vadd_t at 1. rewrite vnth_vtab by congruence. reflexivity.
Qed.

Lemma hidden_bias_update_rule_witness :
  exists r w',
    contrastive_divergence ones_batch true 1 1 (small_world (1 # 2))
      = (Return r, w') /\
    vnth (h_bias_update (self w')) 0
    == (1 # 2) * vnth (h_bias_update (small_rbm (1 # 2))) 0
       + 1 * (sum_n 1
                (fun r => entry (hidden_prob (small_rbm (1 # 2)) ones_batch)
                            r 0
                          - entry (negative_hidden (small_world (1 # 2))
                                     ones_batch 1) r 0)
              / inject_Z 16).
Proof.
  destruct (hidden_bias_update_rule ones_batch 1 1 (small_world (1 # 2)))
    as (r & w' & Hrun & Hrule).
  - repeat split.
  - reflexivity.
  - discriminate.
  - discriminate.
  - exists r, w'. split; [exact Hrun|].
    exact (proj1 (Hrule 0%nat (Nat.lt_0_succ 0))).
Defined.

(** ** [step] and [train]: what they keep *)

Section KeepsTraining.
Context {X : Type} (f : RBM -> X).
Hypothesis f_grad_update : forall T s, f (set_grad_update T s) = f s.
Hypothesis f_W : forall T s, f (set_W T s) = f s.
Hypothesis f_v_bias_update : forall v s, f (set_v_bias_update v s) = f s.
Hypothesis f_h_bias_update : forall v s, f (set_h_bias_update v s) = f s.
Hypothesis f_v_bias : forall v s, f (set_v_bias v s) = f s.
Hypothesis f_h_bias : forall v s, f (set_h_bias v s) = f s.
Hypothesis f_momentum : forall m s, f (set_momentum m s) = f s.
Hypothesis f_batch_size : forall b s, f (set_batch_size b s) = f s.

Lemma keeps_lift {A : Type} (o : outcome A) : keeps f (lift o).
Proof. intros w. reflexivity. Qed.

Lemma keeps_step (batch : tensor) (epoch num_epochs : Z) :
  keeps f (step batch epoch num_epochs).
Proof.
  unfold step.
  apply keeps_bind; [apply keeps_get_self|intros s].
  apply keeps_bind.
  { destruct (increase_to_cd_k s); [|apply keeps_ret].
    apply keeps_bind; [|intros q; apply keeps_lift].
    unfold int_truediv.
    destruct (num_epochs =? 0)%Z; [apply keeps_raise|apply keeps_ret]. }
  intros n. apply keeps_bind.
  { destruct (learning_rate_decay s); [|apply keeps_ret].
    destruct (epoch =? 0)%Z; [apply keeps_raise|apply keeps_ret]. }
  intros lr. apply keeps_bind.
  { destruct (5 <? epoch)%Z; [|apply keeps_ret].
    apply keeps_modify_self. intros s0. apply f_momentum. }
  intros _. apply keeps_contrastive_divergence.
  intros _ s0. repeat split; auto.
Qed.

Lemma keeps_view (batch : tensor) (width : Z) : keeps f (view batch width).
Proof.
  intros w. unfold view.
  destruct (width <? -1)%Z; [reflexivity|].
  destruct (width =? -1)%Z.
  - destruct (rows batch =? 0)%nat; reflexivity.
  - destruct (_ =? _)%nat; reflexivity.
Qed.

Lemma keeps_unpack2 (v : pyvalue) : keeps f (unpack2 v).
Proof.
  intros w. destruct v as [x|[|a [|b [|c l]]]]; reflexivity.
Qed.

Lemma keeps_train_batches (train_loader : list tensor)
    (epoch num_epochs : Z) :
  keeps f (train_batches train_loader epoch num_epochs).
Proof.
  induction train_loader as [|batch rest IH]; cbn [train_batches].
  - apply keeps_ret.
  - apply keeps_bind; [apply keeps_get_self|intros s].
    apply keeps_bind; [apply keeps_view|intros b].
    apply keeps_bind; [apply keeps_step|intros r].
    apply keeps_bind; [apply keeps_unpack2|intros _].
    exact IH.
Qed.

Lemma keeps_train_epochs (todo : nat) :
  forall (epoch : Z) (train_loader : list tensor) (num_epochs : Z),
    keeps f (train_epochs todo epoch train_loader num_epochs).
Proof.
  induction todo as [|todo IH]; intros epoch train_loader num_epochs;
    cbn [train_epochs].
  - apply keeps_ret.
  - apply keeps_bind; [apply keeps_train_batches|intros _]. apply IH.
Qed.

Lemma keeps_train (train_dataloader : loader_arg) (num_epochs bs : Z) :
  keeps f (train train_dataloader num_epochs bs).
Proof.
  unfold train.
  apply keeps_bind;
    [apply keeps_modify_self; intros s; apply f_batch_size|intros _].
  apply keeps_bind; [|intros l; apply keeps_train_epochs].
  destruct train_dataloader as [batches|samples]; [apply keeps_ret|].
  unfold new_DataLoader.
  destruct (bs <=? 0)%Z; [apply keeps_raise|apply keeps_ret].
Qed.
End KeepsTraining.

(** X10.  Only two fields of the object are ever assigned by [train]
    besides the parameters and their accumulators: the batch size and the
    momentum.  Every other setting is after the call, returned or raised,
    what it was before; so is the final momentum the switch reads. *)
Theorem train_keeps_hyperparameters (train_dataloader : loader_arg)
    (num_epochs bs : Z) (w : world) :
  hyperparameters (self (snd (train train_dataloader num_epochs bs w)))
    = hyperparameters (self w) /\
  forall batch epoch ne,
    hyperparameters (self (snd (step batch epoch ne w)))
      = hyperparameters (self w) /\
    batch_size (self (snd (step batch epoch ne w))) = batch_size (self w).
Proof.
  split.
  - apply (keeps_train hyperparameters); intros; reflexivity.
  - intros batch epoch ne. split.
    + apply (keeps_step hyperparameters); intros; reflexivity.
    + apply (keeps_step batch_size); intros; reflexivity.
Qed.

(** ** [step]: failures and the call it makes *)

(** X11.  When the schedule cannot be derived the step raises before it
    touches anything: with the ramp enabled and [num_epochs = 0], or with
    a decaying learning rate at [epoch = 0], the division raises
    [ZeroDivisionError] and the world, the momentum included, is as
    before. *)
Theorem step_schedule_failure (batch : tensor) (epoch num_epochs : Z)
    (w : world) :
  (increase_to_cd_k (self w) = true /\ num_epochs = 0%Z) \/
  (increase_to_cd_k (self w) = false /\
   learning_rate_decay (self w) = true /\ epoch = 0%Z) ->
  step batch epoch num_epochs w = (Raise ZeroDivisionError, w).
Proof.
  intros H. rewrite step_unfold. unfold schedule, gibbs_steps, step_lr.
  destruct H as [[Hr ->]|(Hr & Hd & ->)]; rewrite Hr.
  - reflexivity.
  - rewrite Hd. reflexivity.
Qed.

Lemma step_schedule_failure_witness :
  step one_batch 7 0 ramp_world = (Raise ZeroDivisionError, ramp_world) /\
  step ones_batch 0 10 idle_world = (Raise ZeroDivisionError, idle_world).
Proof.
  split.
  - apply step_schedule_failure. left. split; reflexivity.
  - apply step_schedule_failure. right. repeat split.
Defined.

(** X12.  A step of an object whose constant Gibbs-step count [k] is not
    positive fails in the estimator with [UnboundLocalError]; by then it
    has drawn one random tensor and, when [epoch > 5], has already
    switched the momentum to [final_momentum]. *)
Theorem step_without_gibbs_steps (batch : tensor) (epoch num_epochs : Z)
    (w : world) :
  well_shaped (self w) ->
  cols batch = rows (W (self w)) ->
  increase_to_cd_k (self w) = false ->
  (k (self w) <= 0)%Z ->
  epoch <> 0%Z ->
  step batch epoch num_epochs w
    = (Raise UnboundLocalError,
       mkWorld (switch_momentum epoch (self w)) (source w) (S (drawn w))) /\
  ((5 < epoch)%Z ->
   momentum (self (snd (step batch epoch num_epochs w)))
     = final_momentum (self w)).
Proof.
  intros Hs Hb Hr Hk He.
  assert (E : step batch epoch num_epochs w
              = (Raise UnboundLocalError,
                 mkWorld (switch_momentum epoch (self w)) (source w)
                   (S (drawn w)))).
  { rewrite step_unfold. unfold schedule, gibbs_steps, step_lr.
    rewrite Hr.
    assert (Hsw : well_shaped
                    (self (mkWorld (switch_momentum epoch (self w))
                             (source w) (drawn w))))
      by (apply well_shaped_switch_momentum; exact Hs).
    assert (Hbw : cols batch
                  = rows (W (self (mkWorld (switch_momentum epoch (self w))
                                     (source w) (drawn w)))))
      by (cbn [self]; unfold switch_momentum;
          destruct (5 <? epoch)%Z; exact Hb).
    destruct (learning_rate_decay (self w)).
    - destruct (Z.eqb_spec epoch 0) as [E0|_]; [contradiction|].
      rewrite (contrastive_divergence_no_steps batch true _ _ _ Hsw Hbw Hk).
      reflexivity.
    - rewrite (contrastive_divergence_no_steps batch true _ _ _ Hsw Hbw Hk).
      reflexivity. }
  split; [exact E|].
  intros H5. rewrite E. cbn [snd self].
  rewrite momentum_switch_momentum.
  destruct (Z.ltb_spec 5 epoch); [reflexivity|lia].
Qed.

Lemma step_without_gibbs_steps_witness :
  momentum (self (snd (step ones_batch 6 10 idle_world))) = 9 # 10.
Proof.
  apply (step_without_gibbs_steps ones_batch 6 10 idle_world).
  - repeat split.
  - reflexivity.
  - reflexivity.
  - discriminate.
  - discriminate.
  - reflexivity.
Defined.

Lemma hyperparameters_switch_momentum (epoch : Z) (s : RBM) :
  hyperparameters (switch_momentum epoch s) = hyperparameters s.
Proof. unfold switch_momentum. destruct (5 <? epoch)%Z; reflexivity. Qed.

(** X13.  A step with a constant, positive Gibbs-step count on a batch of
    the right width returns the pair of the estimator after one training
    call made with the momentum already switched and with the learning
    rate of the epoch: [learning_rate / epoch] when the rate decays,
    [learning_rate] otherwise.  It draws [1 + 2k] random tensors. *)
Theorem step_trains_at_epoch_rate (batch : tensor) (epoch num_epochs : Z)
    (w : world) :
  well_shaped (self w) ->
  cols batch = rows (W (self w)) ->
  increase_to_cd_k (self w) = false ->
  (1 <= k (self w))%Z ->
  epoch <> 0%Z ->
  exists e g,
    step batch epoch num_epochs w
      = (Return (Tuple [e; g]),
         mkWorld
           (trained
              (mkWorld (switch_momentum epoch (self w)) (source w) (drawn w))
              batch (Z.to_nat (k (self w))) (epoch_lr (self w) epoch))
           (source w) (1 + 2 * Z.to_nat (k (self w)) + drawn w)).
Proof.
  intros Hs Hb Hr Hk He.
  rewrite step_unfold. unfold schedule, gibbs_steps, step_lr, epoch_lr.
  rewrite Hr.
  assert (Hsw : well_shaped
                  (self (mkWorld (switch_momentum epoch (self w))
                           (source w) (drawn w))))
    by (apply well_shaped_switch_momentum; exact Hs).
  assert (Hbw : cols batch
                = rows (W (self (mkWorld (switch_momentum epoch (self w))
                                   (source w) (drawn w)))))
    by (cbn [self]; unfold switch_momentum;
        destruct (5 <? epoch)%Z; exact Hb).
  destruct (learning_rate_decay (self w)).
  - destruct (Z.eqb_spec epoch 0) as [E0|_]; [contradiction|].
    rewrite (contrastive_divergence_run batch true _ _ _ Hsw Hbw Hk).
    eexists _, _. reflexivity.
  - rewrite (contrastive_divergence_run batch true _ _ _ Hsw Hbw Hk).
    eexists _, _. reflexivity.
Qed.

Lemma step_trains_at_epoch_rate_witness :
  exists e g,
    step ones_batch 4 10 (small_world (1 # 2))
      = (Return (Tuple [e; g]),
         mkWorld
           (trained (small_world (1 # 2)) ones_batch 1 1)
           (fun _ _ _ => 1 # 2) 4).
Proof.
  exact (step_trains_at_epoch_rate ones_batch 4 10 (small_world (1 # 2))
           ltac:(repeat split) eq_refl eq_refl ltac:(discriminate)
           ltac:(discriminate)).
Defined.

(** ** [train] *)

Lemma train_epochs_empty (todo : nat) :
  forall (epoch num_epochs : Z) (w : world),
    train_epochs todo epoch [] num_epochs w = (Return tt, w).
Proof.
  induction todo as [|todo IH]; intros epoch num_epochs w.
  - reflexivity.
  - cbn [train_epochs train_batches]. unfold bind, ret. apply IH.
Qed.

(** X14.  Training on a loader that yields no batch returns normally for
    every number of epochs: the batch size is stored and nothing else
    happens. *)
Theorem train_empty_loader (num_epochs bs : Z) (w : world) :
  train (DataLoader []) num_epochs bs w
    = (Return tt, mkWorld (set_batch_size bs (self w)) (source w) (drawn w)).
Proof.
  unfold train, bind, modify_self, ret.
  apply train_epochs_empty.
Qed.

Lemma view_run (batch : tensor) (n : nat) (w : world) :
  cols batch = n ->
  view batch (Z.of_nat n) w
    = (Return (mkTensor (rows batch) n (data batch)), w).
Proof.
  intros Hc. unfold view.
  destruct (Z.ltb_spec (Z.of_nat n) (-1)); [lia|].
  destruct (Z.eqb_spec (Z.of_nat n) (-1)); [lia|].
  rewrite Nat2Z.id, Hc, Nat.eqb_refl. reflexivity.
Qed.

(** X15.  A batch with at least one row whose width is not the number of
    visible units stops [train] at its first pass: reshaping it raises,
    before any step has run, and only the batch size has been stored. *)
Theorem train_refuses_wrong_width (batch : tensor) (rest : list tensor)
    (num_epochs bs : Z) (w : world) :
  well_shaped (self w) ->
  (0 < rows batch)%nat ->
  cols batch <> rows (W (self w)) ->
  (1 <= num_epochs)%Z ->
  train (DataLoader (batch :: rest)) num_epochs bs w
    = (Raise RuntimeError,
       mkWorld (set_batch_size bs (self w)) (source w) (drawn w)).
Proof.
  intros (Hv & _) Hr Hc Hn.
  unfold train, bind at 1, modify_self. cbv beta iota.
  unfold bind at 1, ret at 1. cbv beta iota.
  destruct (Z.to_nat num_epochs) as [|todo] eqn:E; [lia|].
  cbn [train_epochs train_batches].
  apply bind_raise. unfold get_self, bind at 1. cbn [self].
  apply bind_raise.
  change (visible_units (set_batch_size bs (self w)))
    with (visible_units (self w)).
  rewrite Hv. unfold view.
  destruct (Z.ltb_spec (Z.of_nat (rows (W (self w)))) (-1)); [lia|].
  destruct (Z.eqb_spec (Z.of_nat (rows (W (self w)))) (-1)); [lia|].
  rewrite Nat2Z.id.
  destruct (Nat.eqb_spec (rows batch * cols batch)
              (rows batch * rows (W (self w)))) as [Eq|_]; [|reflexivity].
  exfalso. apply Hc. nia.
Qed.

Lemma train_refuses_wrong_width_witness :
  train (DataLoader [one_batch; ones_batch]) 3 16 (small_world (1 # 2))
    = (Raise RuntimeError,
       mkWorld (set_batch_size 16 (small_rbm (1 # 2)))
         (fun _ _ _ => 1 # 2) 1).
Proof.
  apply (train_refuses_wrong_width one_batch [ones_batch] 3 16
           (small_world (1 # 2))).
  - repeat split.
  - apply Nat.lt_0_succ.
  - discriminate.
  - discriminate.
Defined.

Lemma train_batches_run (train_loader : list tensor) :
  forall (epoch num_epochs : Z) (w : world),
    (1 <= epoch)%Z ->
    well_shaped (self w) ->
    increase_to_cd_k (self w) = false ->
    (1 <= k (self w))%Z ->
    Forall (fun b => cols b = rows (W (self w))) train_loader ->
    exists w',
      train_batches train_loader epoch num_epochs w = (Return tt, w') /\
      well_shaped (self w') /\
      hyperparameters (self w') = hyperparameters (self w) /\
      batch_size (self w') = batch_size (self w) /\
      rows (W (self w')) = rows (W (self w)) /\
      source w' = source w /\
      drawn w'
        = (length train_loader * (1 + 2 * Z.to_nat (k (self w)))
           + drawn w)%nat /\
      momentum (self w')
        = (if yields_batches train_loader
           then momentum (switch_momentum epoch (self w))
           else momentum (self w)).
Proof.
  induction train_loader as [|batch rest IH];
    intros epoch num_epochs w He Hs Hr Hk Hall.
  - exists w. split; [reflexivity|]. split; [exact Hs|].
    repeat (split; [reflexivity|]). reflexivity.
  - inversion Hall as [|b l Hb Hrest]; subst b l.
    pose proof Hs as (Hv & _).
    cbn [train_batches].
    rewrite (bind_run (c := get_self) _ (eq_refl (Return (self w), w))).
    rewrite Hv.
    rewrite (bind_run _ (view_run batch (rows (W (self w))) w Hb)).
    destruct (step_trains_at_epoch_rate
                (mkTensor (rows batch) (rows (W (self w))) (data batch))
                epoch num_epochs w Hs eq_refl Hr Hk ltac:(lia))
      as (e & g & Hstep).
    rewrite (bind_run _ Hstep).
    rewrite (bind_run (c := unpack2 (Tuple [e; g])) _
               (eq_refl (Return (e, g), _))).
    set (w1 := mkWorld (switch_momentum epoch (self w)) (source w)
                 (drawn w)) in *.
    set (b1 := mkTensor (rows batch) (rows (W (self w))) (data batch)) in *.
    set (s2 := trained w1 b1 (Z.to_nat (k (self w)))
                 (epoch_lr (self w) epoch)) in *.
    set (w2 := mkWorld s2 (source w)
                 (1 + 2 * Z.to_nat (k (self w)) + drawn w)) in *.
    assert (Hhyp : hyperparameters s2 = hyperparameters (self w)).
    { transitivity (hyperparameters (switch_momentum epoch (self w)));
        [reflexivity|apply hyperparameters_switch_momentum]. }
    assert (HW : rows (W s2) = rows (W (self w))).
    { transitivity (rows (W (switch_momentum epoch (self w))));
        [reflexivity|].
      unfold switch_momentum. destruct (5 <? epoch)%Z; reflexivity. }
    assert (Hbs : batch_size s2 = batch_size (self w)).
    { transitivity (batch_size (switch_momentum epoch (self w)));
        [reflexivity|].
      unfold switch_momentum. destruct (5 <? epoch)%Z; reflexivity. }
    assert (Hm2 : momentum s2 = momentum (switch_momentum epoch (self w)))
      by reflexivity.
    assert (Hf2 : final_momentum s2 = final_momentum (self w)).
    { transitivity (final_momentum (switch_momentum epoch (self w)));
        [reflexivity|].
      unfold switch_momentum. destruct (5 <? epoch)%Z; reflexivity. }
    assert (Hk2 : k s2 = k (self w)).
    { apply (f_equal (fun t => snd (fst (fst (fst (fst (fst (fst
               (fst t))))))))) in Hhyp. exact Hhyp. }
    assert (Hr2 : increase_to_cd_k s2 = increase_to_cd_k (self w)).
    { apply (f_equal (fun t => snd (fst t))) in Hhyp. exact Hhyp. }
    assert (Hs2 : well_shaped s2).
    { apply trained_well_shaped. apply well_shaped_switch_momentum.
      exact Hs. }
    destruct (IH epoch num_epochs w2 He Hs2
                ltac:(cbn [self w2]; congruence)
                ltac:(cbn [self w2]; rewrite Hk2; exact Hk)
                ltac:(cbn [self w2]; rewrite HW; exact Hrest))
      as (w' & Hrun & Hs' & Hh' & Hb' & HW' & Hsrc' & Hd' & Hm').
    exists w'. cbn [self w2 source drawn] in *.
    split; [exact Hrun|]. split; [exact Hs'|].
    split; [congruence|]. split; [congruence|]. split; [congruence|].
    split; [exact Hsrc'|].
    split.
    + rewrite Hd', Hk2. cbn [length]. lia.
    + cbn [yields_batches]. rewrite Hm'.
      destruct (yields_batches rest); [|exact Hm2].
      rewrite !momentum_switch_momentum, Hf2, Hm2.
      rewrite momentum_switch_momentum.
      destruct (5 <? epoch)%Z; reflexivity.
Qed.

Lemma train_epochs_run (train_loader : list tensor) (num_epochs : Z)
    (todo : nat) :
  forall (epoch : Z) (w : world),
    (1 <= epoch)%Z ->
    well_shaped (self w) ->
    increase_to_cd_k (self w) = false ->
    (1 <= k (self w))%Z ->
    Forall (fun b => cols b = rows (W (self w))) train_loader ->
    exists w',
      train_epochs todo epoch train_loader num_epochs w = (Return tt, w') /\
      well_shaped (self w') /\
      hyperparameters (self w') = hyperparameters (self w) /\
      batch_size (self w') = batch_size (self w) /\
      source w' = source w /\
      drawn w'
        = (todo * (length train_loader * (1 + 2 * Z.to_nat (k (self w))))
           + drawn w)%nat /\
      momentum (self w')
        = (if yields_batches train_loader && (0 <? todo)%nat
              && (5 <? epoch + Z.of_nat todo - 1)%Z
           then final_momentum (self w) else momentum (self w)).
Proof.
  induction todo as [|todo IH]; intros epoch w He Hs Hr Hk Hall.
  - exists w. split; [reflexivity|]. split; [exact Hs|].
    repeat (split; [reflexivity|]).
    rewrite andb_false_r. reflexivity.
  - cbn [train_epochs].
    destruct (train_batches_run train_loader epoch num_epochs w
                He Hs Hr Hk Hall)
      as (w1 & Hrun1 & Hs1 & Hh1 & Hb1 & HW1 & Hsrc1 & Hd1 & Hm1).
    rewrite (bind_run _ Hrun1).
    assert (Hk1 : k (self w1) = k (self w)).
    { apply (f_equal (fun t => snd (fst (fst (fst (fst (fst (fst
               (fst t))))))))) in Hh1. exact Hh1. }
    assert (Hr1 : increase_to_cd_k (self w1) = increase_to_cd_k (self w)).
    { apply (f_equal (fun t => snd (fst t))) in Hh1. exact Hh1. }
    assert (Hf1 : final_momentum (self w1) = final_momentum (self w)).
    { apply (f_equal (fun t => snd (fst (fst (fst t))))) in Hh1.
      exact Hh1. }
    destruct (IH (epoch + 1)%Z w1 ltac:(lia) Hs1
                ltac:(congruence) ltac:(rewrite Hk1; exact Hk)
                ltac:(rewrite HW1; exact Hall))
      as (w' & Hrun & Hs' & Hh' & Hb' & Hsrc' & Hd' & Hm').
    exists w'.
    split; [exact Hrun|]. split; [exact Hs'|].
    split; [congruence|]. split; [congruence|]. split; [congruence|].
    split.
    + rewrite Hd', Hd1, Hk1. lia.
    + rewrite Hm', Hm1, Hf1, momentum_switch_momentum.
      destruct (yields_batches train_loader); cbn [andb]; [|reflexivity].
      destruct todo as [|todo'].
      * cbn [Nat.ltb Nat.leb andb].
        replace (epoch + Z.of_nat 1 - 1)%Z with epoch by lia.
        reflexivity.
      * change (0 <? S todo')%nat with true.
        change (0 <? S (S todo'))%nat with true. cbn [andb].
        replace (epoch + 1 + Z.of_nat (S todo') - 1)%Z
          with (epoch + Z.of_nat (S (S todo')) - 1)%Z by lia.
        destruct (Z.ltb_spec 5 (epoch + Z.of_nat (S (S todo')) - 1));
          [reflexivity|].
        destruct (Z.ltb_spec 5 epoch); [lia|reflexivity].
Qed.

(** X16.  With a constant, positive Gibbs-step count and batches of the
    right width, [train] runs to the end: it returns normally, the shapes
    and the hyperparameters are as before, the batch size is the one
    given, every step of every epoch has drawn its [1 + 2k] random
    tensors, and the momentum has switched to [final_momentum] exactly
    when more than five epochs ran on a loader that yields a batch. *)
Theorem train_completes (train_loader : list tensor) (num_epochs bs : Z)
    (w : world) :
  well_shaped (self w) ->
  increase_to_cd_k (self w) = false ->
  (1 <= k (self w))%Z ->
  Forall (fun b => cols b = rows (W (self w))) train_loader ->
  exists w',
    train (DataLoader train_loader) num_epochs bs w = (Return tt, w') /\
    well_shaped (self w') /\
    hyperparameters (self w') = hyperparameters (self w) /\
    batch_size (self w') = bs /\
    drawn w'
      = (Z.to_nat num_epochs
         * (length train_loader * (1 + 2 * Z.to_nat (k (self w))))
         + drawn w)%nat /\
    momentum (self w')
      = (if yields_batches train_loader && (5 <? num_epochs)%Z
         then final_momentum (self w) else momentum (self w)).
Proof.
  intros Hs Hr Hk Hall.
  unfold train, bind at 1, modify_self. cbv beta iota.
  unfold bind at 1, ret at 1. cbv beta iota.
  destruct (train_epochs_run train_loader num_epochs (Z.to_nat num_epochs)
              1 (mkWorld (set_batch_size bs (self w)) (source w) (drawn w))
              ltac:(lia) Hs Hr Hk Hall)
    as (w' & Hrun & Hs' & Hh' & Hb' & Hsrc' & Hd' & Hm').
  exists w'. cbn [self drawn] in *.
  split; [exact Hrun|]. split; [exact Hs'|].
  split; [exact Hh'|]. split; [exact Hb'|]. split; [exact Hd'|].
  rewrite Hm'.
  change (final_momentum (set_batch_size bs (self w)))
    with (final_momentum (self w)).
  change (momentum (set_batch_size bs (self w))) with (momentum (self w)).
  destruct (yields_batches train_loader); cbn [andb]; [|reflexivity].
  destruct (Nat.ltb_spec 0 (Z.to_nat num_epochs)) as [Hp|Hp]; cbn [andb].
  - replace (1 + Z.of_nat (Z.to_nat num_epochs) - 1)%Z with num_epochs
      by lia.
    reflexivity.
  - destruct (Z.ltb_spec 5 num_epochs); [lia|reflexivity].
Qed.

Lemma train_completes_witness :
  exists w',
    train (DataLoader [ones_batch; ones_batch]) 6 4 (small_world (1 # 2))
      = (Return tt, w') /\
    batch_size (self w') = 4%Z /\
    drawn w' = 37%nat /\
    momentum (self w') = 9 # 10.
Proof.
  destruct (train_completes [ones_batch; ones_batch] 6 4
              (small_world (1 # 2)))
    as (w' & Hrun & _ & _ & Hb & Hd & Hm).
  - repeat split.
  - reflexivity.
  - discriminate.
  - repeat constructor.
  - exists w'. repeat split; assumption.
Defined.

(** ** The Gibbs ramp within its range *)

Lemma ramp_in_range_checked : ramp_in_range 10 50 = true.
Proof. vm_compute. reflexivity. Qed.

Lemma ramp_in_range_spec (kmax nmax : nat) :
  ramp_in_range kmax nmax = true ->
  forall k' ne e : nat,
    (1 <= k' <= kmax)%nat -> (1 <= ne <= nmax)%nat -> (1 <= e <= ne)%nat ->
    ramp_step_ok k' ne e = true.
Proof.
  intros H k' ne e Hk Hne He. unfold ramp_in_range in H.
  rewrite forallb_forall in H.
  specialize (H k' ltac:(apply in_seq; lia)).
  rewrite forallb_forall in H.
  specialize (H ne ltac:(apply in_seq; lia)).
  rewrite forallb_forall in H.
  apply H. apply in_seq. lia.
Qed.

(** X17.  On every schedule with [k <= 10] and [num_epochs <= 50], at
    every epoch from [1] to [num_epochs], the ramp gives exactly the
    ceiling of [epoch * k / num_epochs]: a step count between [1] and
    [k], which is [k] at the last epoch. *)
Theorem gibbs_ramp_in_range (s : RBM) (epoch num_epochs : Z) :
  increase_to_cd_k s = true ->
  (1 <= k s <= 10)%Z ->
  (1 <= epoch <= num_epochs)%Z ->
  (num_epochs <= 50)%Z ->
  exists n,
    gibbs_steps s epoch num_epochs = Return n /\
    n = exact_ceil_div (epoch * k s) num_epochs /\
    (1 <= n <= k s)%Z /\
    (epoch = num_epochs -> n = k s).
Proof.
  intros Hr Hk He Hn.
  pose proof (ramp_in_range_spec 10 50 ramp_in_range_checked
                (Z.to_nat (k s)) (Z.to_nat num_epochs) (Z.to_nat epoch)
                ltac:(lia) ltac:(lia) ltac:(lia)) as H.
  unfold ramp_step_ok in H.
  rewrite !Z2Nat.id in H by lia.
  unfold gibbs_steps. rewrite Hr.
  destruct (Z.eqb_spec num_epochs 0) as [E0|_]; [lia|].
  destruct (ceil_float _) as [n|x]; [|discriminate].
  exists n. split; [reflexivity|].
  apply andb_prop in H. destruct H as [H Hlast].
  apply andb_prop in H. destruct H as [H Hex].
  apply andb_prop in H. destruct H as [H1 Hk'].
  apply Z.leb_le in H1, Hk'. apply Z.eqb_eq in Hex.
  split; [exact Hex|]. split; [lia|].
  intros ->.
  rewrite Nat.eqb_refl in Hlast. apply Z.eqb_eq in Hlast. exact Hlast.
Qed.

Lemma gibbs_ramp_in_range_witness :
  exists n,
    gibbs_steps ramp4_rbm 3 10 = Return n /\ n = 2%Z.
Proof.
  destruct (gibbs_ramp_in_range ramp4_rbm 3 10)
    as (n & Hn & Hex & _).
  - reflexivity.
  - split; discriminate.
  - split; discriminate.
  - discriminate.
  - exists n. split; [exact Hn|]. exact Hex.
Defined.

(** ** The constructor *)

Lemma vzeros_repeat (n : nat) : vzeros n = repeat 0 n.
Proof.
  unfold vzeros, vtab. generalize 0%nat.
  induction n as [|n IH]; intros a; cbn [seq map repeat].
  - reflexivity.
  - rewrite IH. reflexivity.
Qed.

Lemma zeros_repeat (n m : nat) : data (zeros n m) = repeat (repeat 0 m) n.
Proof.
  unfold zeros, tabulate. cbn [data].
  change (map (fun _ : nat => 0) (seq 0 m)) with (vzeros m).
  rewrite vzeros_repeat.
  generalize 0%nat.
  induction n as [|n IH]; intros a; cbn [seq map repeat].
  - reflexivity.
  - rewrite IH. reflexivity.
Qed.

(** X18.  Whenever the constructor returns, neither size was negative and
    the object is well shaped: [W] is [visible_units] by [hidden_units],
    both biases and the three accumulators are all zeros of the matching
    sizes, the batch size is [16], the momentum is [initial_momentum], and
    exactly one random tensor has been drawn.  Without Xavier
    initialisation each weight is its draw times [0.1]. *)
Theorem constructor_builds_fresh_object (sqrt : Q -> Q) (v h k0 : Z)
    (lr : Q) (lrd : bool) (wd mi mf : Q) (xi inc gpu : bool)
    (src : nat -> nat -> nat -> Q) (d : nat) (w0 : world) :
  __init__ sqrt v h k0 lr lrd wd mi mf xi inc gpu src d = Return w0 ->
  (0 <= v)%Z /\ (0 <= h)%Z /\ (xi = true -> (v + h)%Z <> 0%Z) /\
  well_shaped (self w0) /\
  rows (W (self w0)) = Z.to_nat v /\ cols (W (self w0)) = Z.to_nat h /\
  h_bias (self w0) = repeat 0 (Z.to_nat h) /\
  v_bias (self w0) = repeat 0 (Z.to_nat v) /\
  v_bias_update (self w0) = repeat 0 (Z.to_nat v) /\
  h_bias_update (self w0) = repeat 0 (Z.to_nat h) /\
  data (grad_update (self w0)) = repeat (repeat 0 (Z.to_nat h)) (Z.to_nat v) /\
  batch_size (self w0) = 16%Z /\ momentum (self w0) = mi /\
  source w0 = src /\ drawn w0 = S d /\
  (xi = false ->
   forall i j, (i < Z.to_nat v)%nat -> (j < Z.to_nat h)%nat ->
     entry (W (self w0)) i j = src d i j * (1 # 10)).
Proof.
  intros Hinit.
  assert (Hv : (0 <= v)%Z).
  { destruct (Z.ltb_spec v 0) as [Hneg|]; [|assumption].
    unfold __init__ in Hinit. rewrite (check_size_negative v Hneg) in Hinit.
    destruct xi; cbn [negb] in Hinit; [|discriminate].
    destruct (v + h =? 0)%Z; discriminate. }
  assert (Hh : (0 <= h)%Z).
  { destruct (Z.ltb_spec h 0) as [Hneg|]; [|assumption].
    unfold __init__ in Hinit.
    rewrite (check_size_nonneg v Hv), (check_size_negative h Hneg) in Hinit.
    destruct xi; cbn [negb] in Hinit; [|discriminate].
    destruct (v + h =? 0)%Z; discriminate. }
  assert (Hx : xi = true -> (v + h)%Z <> 0%Z).
  { intros -> E. unfold __init__ in Hinit. cbn [negb] in Hinit.
    rewrite E in Hinit. discriminate. }
  split; [exact Hv|]. split; [exact Hh|]. split; [exact Hx|].
  unfold __init__ in Hinit.
  rewrite (check_size_nonneg v Hv), (check_size_nonneg h Hh) in Hinit.
  assert (Hshape : forall W0 : tensor,
            rows W0 = Z.to_nat v -> cols W0 = Z.to_nat h ->
            well_shaped
              (mkRBM v h k0 lr lrd wd mi mf xi inc gpu 16 W0
                 (vzeros (Z.to_nat h)) (vzeros (Z.to_nat v))
                 (vzeros (Z.to_nat v)) (vzeros (Z.to_nat h))
                 (zeros (Z.to_nat v) (Z.to_nat h)))).
  { intros W0 HR HC. unfold well_shaped.
    cbn [visible_units hidden_units W h_bias v_bias v_bias_update
         h_bias_update grad_update zeros rows cols tabulate].
    unfold vzeros. rewrite !length_vtab, HR, HC, !Z2Nat.id by assumption.
    repeat split. }
  destruct xi; cbn [negb] in Hinit.
  - destruct (Z.eqb_spec (v + h) 0) as [E|_]; [discriminate|].
    injection Hinit as <-. cbn [self source drawn].
    split; [apply Hshape; reflexivity|].
    cbn [W h_bias v_bias v_bias_update h_bias_update grad_update
         batch_size momentum].
    rewrite !vzeros_repeat, zeros_repeat.
    repeat split. discriminate.
  - injection Hinit as <-. cbn [self source drawn].
    split; [apply Hshape; reflexivity|].
    cbn [W h_bias v_bias v_bias_update h_bias_update grad_update
         batch_size momentum].
    rewrite !vzeros_repeat, zeros_repeat.
    repeat split.
    intros _ i j Hi Hj. apply entry_tabulate; assumption.
Qed.

Lemma constructor_builds_fresh_object_witness :
  well_shaped (small_rbm (1 # 2)) /\
  v_bias (small_rbm (1 # 2)) = repeat 0 2 /\
  drawn (small_world (1 # 2)) = 1%nat.
Proof.
  destruct (constructor_builds_fresh_object (fun x => x) 2 1 1 1 false 0
              (1 # 2) (9 # 10) false false false (fun _ _ _ => 1 # 2) 0
              (small_world (1 # 2)) eq_refl)
    as (_ & _ & _ & Hs & _ & _ & _ & Hvb & _ & _ & _ & _ & _ & _ & Hd & _).
  repeat split; try apply Hs; assumption.
Defined.

(** X19.  With Xavier initialisation every weight lies between [-x] and
    [x], where [x] is the square root of [1 / (visible_units +
    hidden_units)], provided the draws lie in [[0, 1)] and the square
    root is not negative. *)
Theorem xavier_weights_in_range (sqrt : Q -> Q) (v h k0 : Z) (lr : Q)
    (lrd : bool) (wd mi mf : Q) (inc gpu : bool)
    (src : nat -> nat -> nat -> Q) (d : nat) (w0 : world) :
  __init__ sqrt v h k0 lr lrd wd mi mf true inc gpu src d = Return w0 ->
  0 <= sqrt (1 / inject_Z (v + h)) ->
  (forall i j, 0 <= src d i j /\ src d i j < 1) ->
  forall i j, (i < Z.to_nat v)%nat -> (j < Z.to_nat h)%nat ->
    - sqrt (1 / inject_Z (v + h)) <= entry (W (self w0)) i j /\
    entry (W (self w0)) i j <= sqrt (1 / inject_Z (v + h)).
Proof.
  intros Hinit Hx Hu i j Hi Hj.
  destruct (constructor_builds_fresh_object _ _ _ _ _ _ _ _ _ _ _ _ _ _ _
              Hinit) as (Hv & Hh & _).
  unfold __init__ in Hinit. cbn [negb] in Hinit.
  rewrite (check_size_nonneg v Hv), (check_size_nonneg h Hh) in Hinit.
  destruct (v + h =? 0)%Z; [discriminate|].
  injection Hinit as <-. cbn [self W].
  rewrite entry_tabulate by assumption.
  set (x := sqrt (1 / inject_Z (v + h))) in *.
  destruct (Hu i j) as [Hu0 Hu1].
  assert (H0 : 0 <= src d i j * (2 * x)).
  { apply Qmult_le_0_compat; [exact Hu0|].
    apply Qmult_le_0_compat; [discriminate|exact Hx]. }
  assert (H1 : src d i j * (2 * x) <= 1 * (2 * x)).
  { apply Qmult_le_compat_r; [apply Qlt_le_weak; exact Hu1|].
    apply Qmult_le_0_compat; [discriminate|exact Hx]. }
  split.
  - apply Qle_trans with (- x + 0).
    + assert (E : - x + 0 == - x) by ring.
      rewrite E. apply Qle_refl.
    + apply Qplus_le_compat; [apply Qle_refl|exact H0].
  - apply Qle_trans with (- x + 1 * (2 * x)).
    + apply Qplus_le_compat; [apply Qle_refl|exact H1].
    + assert (E : - x + 1 * (2 * x) == x) by ring.
      rewrite E. apply Qle_refl.
Qed.

Lemma xavier_weights_in_range_witness :
  exists w0,
    __init__ (fun _ => 1 # 2) 2 2 1 1 false 0 (1 # 2) (9 # 10) true false
      false (fun _ _ _ => 1 # 4) 0 = Return w0 /\
    - (1 # 2) <= entry (W (self w0)) 0 0 /\
    entry (W (self w0)) 0 0 <= 1 # 2.
Proof.
  eexists. split; [reflexivity|].
  apply (xavier_weights_in_range (fun _ => 1 # 2) 2 2 1 1 false 0 (1 # 2)
           (9 # 10) false false (fun _ _ _ => 1 # 4) 0 _ eq_refl).
  - discriminate.
  - intros i j. split; [discriminate|reflexivity].
  - apply Nat.lt_0_succ.
  - apply Nat.lt_0_succ.
Defined.

(** ** What [reconstruct] returns *)

Lemma reconstruct_chain_last (s : RBM) (src : nat -> nat -> nat -> Q)
    (n : nat) :
  forall (c : nat) (pv : option tensor) (v : tensor),
  exists X',
    reconstruct_chain s src c (S n) pv v
      = (Some (visible_prob s (hidden_prob s X')),
         sample_at src (S (2 * n + c)) (visible_prob s (hidden_prob s X')))
    /\ rows X' = rows v.
Proof.
  induction n as [|n IH]; intros c pv v.
  - exists v. split; reflexivity.
  - change (reconstruct_chain s src c (S (S n)) pv v)
      with (reconstruct_chain s src (S (S c)) (S n)
              (Some (visible_prob s (hidden_prob s v)))
              (sample_at src (S c) (visible_prob s (hidden_prob s v)))).
    destruct (IH (S (S c)) (Some (visible_prob s (hidden_prob s v)))
                (sample_at src (S c) (visible_prob s (hidden_prob s v))))
      as (X' & E & R).
    exists X'. split; [|exact R].
    rewrite E. replace (2 * n + S (S c))%nat with (2 * S n + c)%nat by lia.
    reflexivity.
Qed.

(** X20.  The pair [reconstruct] returns belongs together: the sample is
    the last draw of the loop compared against the returned
    probabilities, entry by entry, so it is binary, and the probabilities
    are never negative. *)
Theorem reconstruct_returns_sample_of_probabilities (X : tensor) (n : Z)
    (w : world) :
  well_shaped (self w) ->
  cols X = rows (W (self w)) ->
  (1 <= n)%Z ->
  exists pv v,
    fst (reconstruct X n w) = Return (pv, v) /\
    forall i j, (i < rows X)%nat -> (j < cols X)%nat ->
      0 <= entry pv i j /\
      entry v i j
        = ge_float (entry pv i j)
            (source w (2 * Z.to_nat n - 1 + drawn w) i j) /\
      (entry v i j = 0 \/ entry v i j = 1).
Proof.
  intros Hs HX Hn.
  pose proof Hs as (_ & _ & Hhb & Hvb & _).
  destruct (Z.to_nat n) as [|m] eqn:Em; [lia|].
  destruct (reconstruct_chain_last (self w) (source w) m (drawn w) None X)
    as (X' & E & R).
  exists (visible_prob (self w) (hidden_prob (self w) X')),
    (sample_at (source w) (S (2 * m + drawn w))
       (visible_prob (self w) (hidden_prob (self w) X'))).
  split.
  - unfold reconstruct. rewrite Em.
    rewrite (bind_run _ (reconstruct_loop_run (S m) None X w Hhb Hvb HX)).
    rewrite E. reflexivity.
  - intros i j Hi Hj.
    set (P := visible_prob (self w) (hidden_prob (self w) X')).
    assert (HPr : rows P = rows X) by (rewrite <- R; reflexivity).
    assert (HPc : cols P = cols X) by (rewrite HX; reflexivity).
    assert (ES : entry (sample_at (source w) (S (2 * m + drawn w)) P) i j
                 = ge_float (entry P i j)
                     (source w (S (2 * m + drawn w)) i j)).
    { unfold sample_at, ge_float_t.
      rewrite entry_tabulate by congruence.
      rewrite entry_tabulate by congruence. reflexivity. }
    split; [|split].
    + unfold P, visible_prob, relu.
      rewrite entry_tabulate
        by (first [ change (i < rows (hidden_prob (self w) X'))%nat;
                    change (i < rows X')%nat; congruence
                  | change (j < rows (W (self w)))%nat; congruence ]).
      apply relu_q_nonneg.
    + rewrite ES.
      replace (2 * S m - 1 + drawn w)%nat with (S (2 * m + drawn w))
        by lia.
      reflexivity.
    + rewrite ES. apply ge_float_binary.
Qed.

Lemma reconstruct_returns_sample_of_probabilities_witness :
  exists pv v,
    fst (reconstruct ones_batch 2 (small_world (1 # 2))) = Return (pv, v) /\
    0 <= entry pv 0 1 /\ (entry v 0 1 = 0 \/ entry v 0 1 = 1).
Proof.
  destruct (reconstruct_returns_sample_of_probabilities ones_batch 2
              (small_world (1 # 2)))
    as (pv & v & Hrun & Hall).
  - repeat split.
  - reflexivity.
  - discriminate.
  - exists pv, v. split; [exact Hrun|].
    destruct (Hall 0%nat 1%nat (Nat.lt_0_succ 0) (Nat.lt_succ_diag_r 1))
      as (H0 & _ & Hb).
    split; assumption.
Defined.
